(** * The product catalog of src/server.js: embedded-variant update protocol

    src/server.js holds two Express servers over a Mongoose [Product]
    model: the catalog server with nested variants (lines 1-205, module
    [Catalog]) and a smaller server with a sample-data fallback (lines
    206-382, module [Minimal]).

    A collection is the list of its documents in store order.  A route is a
    function from the request parameters and the collection to the response
    and the collection afterwards; [try { .. } catch] is a match on a
    [Result].  The store operations the routes call ([find], [findById],
    [updateOne] with [$set] on the positional operator, [$push], [$pull])
    are modelled the way the driver documents them:
    - [updateOne] changes the first document that satisfies the query;
    - [modifiedCount] counts documents whose content really changed;
    - schema validators ([required], [min]) run on [save], and on an update
      only when [runValidators] is passed, which lines 138, 156 and 187
      do not pass;
    - [unique: true] (line 20) declares a unique index on [variants.sku],
      it is no validator: the index is in force on every store that
      satisfies it, and the server refuses, with a duplicate-key error, a
      write that would leave two documents with a common key. *)

From stdpp Require Import base decidable option list strings pretty.
From Stdlib Require Import ZArith NArith Ascii.

Local Open Scope string_scope.
Local Open Scope list_scope.
Local Open Scope Z_scope.

(** ** What both servers share: identifiers, errors, try/catch *)

(** A 12-byte ObjectId, as the number its 24 hex digits denote. *)
Definition ObjectId : Type := N.

(** An error thrown by an awaited store call: by the driver while it casts
    a request value, or by the server when a write breaks a unique index. *)
Inductive DriverError : Type :=
  | CastError (path value : string)
  | DuplicateKey (index : string).

(** The outcome of an awaited driver call. *)
Inductive Result (A : Type) : Type :=
  | Ok (a : A)
  | Throw (e : DriverError).
Arguments Ok {A} a.
Arguments Throw {A} e.

Definition bind {A B} (r : Result A) (k : A → Result B) : Result B :=
  match r with
  | Ok a => k a
  | Throw e => Throw e
  end.

Notation "'await' x ← r ; k" := (bind r (λ x, k))
  (at level 10, x name, r at level 100, k at level 200, only parsing).

(** [try { body } catch (error) { handler }] *)
Definition try_catch {A} (body : Result A) (handler : DriverError → A) : A :=
  match body with
  | Ok a => a
  | Throw e => handler e
  end.

Definition hex_digit (c : ascii) : option N :=
  let n := N_of_ascii c in
  if ((48 <=? n) && (n <=? 57))%N then Some (n - 48)%N
  else if ((97 <=? n) && (n <=? 102))%N then Some (n - 87)%N
  else if ((65 <=? n) && (n <=? 70))%N then Some (n - 55)%N
  else None.

Fixpoint parse_hex (acc : N) (s : string) : option N :=
  match s with
  | EmptyString => Some acc
  | String c s' =>
      match hex_digit c with
      | Some d => parse_hex (16 * acc + d)%N s'
      | None => None
      end
  end.

(** The cast of a route parameter to the [_id] path: a string of 24 hex
    digits is an ObjectId, anything else throws. *)
Definition castObjectId (s : string) : Result ObjectId :=
  if decide (String.length s = 24%nat) then
    match parse_hex 0%N s with
    | Some n => Ok n
    | None => Throw (CastError "_id" s)
    end
  else Throw (CastError "_id" s).

(** What [updateOne] resolves to. *)
Record UpdateResult : Type := mkUpdateResult {
  matchedCount : nat;
  modifiedCount : nat
}.

(** ** Validation, as [save] and a validated update run it *)

(** What a route can catch: an error of the store call, or the validation
    error of [save] and of an update under [runValidators], with the paths
    that failed. *)
Inductive Thrown : Type :=
  | ThrownDriver (e : DriverError)
  | ThrownValidation (paths : list string).

(** A checked value: the paths that failed, or the value. *)
Definition Checked (A : Type) : Type := (list string + A)%type.

Definition failures {A} (a : Checked A) : list string :=
  match a with
  | inl paths => paths
  | inr _ => []
  end.

(** Two checks together: the failures of both are reported. *)
Definition also {A B} (a : Checked A) (b : Checked B) : Checked (A * B) :=
  match a, b with
  | inr x, inr y => inr (x, y)
  | _, _ => inl (failures a ++ failures b)
  end.

(** [required: true] on a String path: an absent and an empty string
    fail. *)
Definition required_string (path : string) (x : option string) : Checked string :=
  match x with
  | Some s => if decide (s = "") then inl [path] else inr s
  | None => inl [path]
  end.

(** [required: true, min: 0] on a Number path. *)
Definition required_min0 (path : string) (x : option Z) : Checked Z :=
  match x with
  | Some n => if decide (0 ≤ n) then inr n else inl [path]
  | None => inl [path]
  end.

(** [required: true, enum: values] on a String path. *)
Definition required_enum (values : list string) (path : string) (x : option string)
    : Checked string :=
  match x with
  | Some s => if decide (s ∈ values) then inr s else inl [path]
  | None => inl [path]
  end.

(** A validator of an update: it runs on a path the update sets. *)
Definition when_set {A} (check : option A → Checked A) (x : option A) : list string :=
  match x with
  | Some _ => failures (check x)
  | None => []
  end.

(** ** The catalog server (src/server.js, lines 1-205) *)

Module Catalog.

(** [variantSchema], lines 16-22.  A stored variant can lack a field the
    schema requires, because updates are not validated. *)
Record Variant : Type := mkVariant {
  v_id : ObjectId;
  color : option string;
  size : option string;
  stock : option Z;
  sku : option string;
  price_adjustment : Z
}.

(** [productSchema], lines 25-39.  Dates are milliseconds. *)
Record Product : Type := mkProduct {
  _id : ObjectId;
  name : string;
  description : string;
  base_price : Z;
  category : string;
  brand : string;
  variants : list Variant;
  tags : list string;
  created_at : Z;
  updated_at : Z
}.

#[global] Instance Variant_eq_dec : EqDecision Variant.
Proof. solve_decision. Defined.

#[global] Instance Product_eq_dec : EqDecision Product.
Proof. solve_decision. Defined.

(** The products collection, in store order. *)
Abbreviation Collection := (list Product) (only parsing).

(** The body of [POST /products/:id/variants]: a variant as the client
    sent it, any field possibly absent. *)
Record VariantBody : Type := mkVariantBody {
  body_color : option string;
  body_size : option string;
  body_stock : option Z;
  body_sku : option string;
  body_price_adjustment : option Z
}.

(** The cast of a pushed body to [variantSchema]: the sub-document gets the
    generated [oid] ([_id: true]) and the default of [price_adjustment];
    [required] and [min] are not checked. *)
Definition castVariant (oid : ObjectId) (b : VariantBody) : Variant :=
  {| v_id := oid;
     color := body_color b;
     size := body_size b;
     stock := body_stock b;
     sku := body_sku b;
     price_adjustment := default 0 (body_price_adjustment b) |}.

(** The fields [required: true] of [variantSchema], as [save] checks them. *)
Definition required_present (b : VariantBody) : bool :=
  bool_decide (is_Some (body_color b)) && bool_decide (is_Some (body_size b))
  && bool_decide (is_Some (body_stock b)) && bool_decide (is_Some (body_sku b)).

(** *** Field updates *)

Definition with_stock (v : Variant) (n : Z) : Variant :=
  {| v_id := v_id v;
     color := color v;
     size := size v;
     stock := Some n;
     sku := sku v;
     price_adjustment := price_adjustment v |}.

Definition with_variants (p : Product) (vs : list Variant) : Product :=
  {| _id := _id p;
     name := name p;
     description := description p;
     base_price := base_price p;
     category := category p;
     brand := brand p;
     variants := vs;
     tags := tags p;
     created_at := created_at p;
     updated_at := updated_at p |}.

(** *** Queries *)

(** An array element satisfies [{ sku: k }]. *)
Definition has_sku (k : string) (v : Variant) : Prop := sku v = Some k.

#[global] Instance has_sku_dec k v : Decision (has_sku k v).
Proof. unfold has_sku. apply _. Defined.

(** A document satisfies [{ 'variants.sku': k }]. *)
Definition variants_sku (k : string) (p : Product) : Prop :=
  Exists (has_sku k) (variants p).

#[global] Instance variants_sku_dec k p : Decision (variants_sku k p).
Proof. unfold variants_sku. apply _. Defined.

(** A document satisfies [{ _id: oid }]. *)
Definition has_id (oid : ObjectId) (p : Product) : Prop := _id p = oid.

#[global] Instance has_id_dec oid p : Decision (has_id oid p).
Proof. unfold has_id. apply _. Defined.

(** *** Update documents *)

(** [{ $set: { 'variants.$.stock': n } }] under the query on
    ['variants.sku']: [$] is the index of the first element that satisfies
    the query. *)
Definition set_positional_stock (k : string) (n : Z) (p : Product) : Product :=
  match list_find (has_sku k) (variants p) with
  | Some (i, v) => with_variants p (<[i := with_stock v n]> (variants p))
  | None => p
  end.

(** [{ $push: { variants: v } }] *)
Definition push_variant (v : Variant) (p : Product) : Product :=
  with_variants p (variants p ++ [v]).

(** [{ $pull: { variants: { sku: k } } }] *)
Definition pull_sku (k : string) (p : Product) : Product :=
  with_variants p (filter (λ v, ¬ has_sku k v) (variants p)).

(** *** Store operations *)

(** [Product.find()] *)
Definition find (c : Collection) : Result (list Product) := Ok c.

(** [Product.findById(id)] *)
Definition findById (id : string) (c : Collection) : Result (option Product) :=
  await oid ← castObjectId id;
  Ok (snd <$> list_find (has_id oid) c).

(** The keys of a document in the index on [variants.sku]: the sku of each
    variant, [null] for a variant without one and for an empty list. *)
Definition index_keys (p : Product) : list (option string) :=
  match variants p with
  | [] => [None]
  | vs => sku <$> vs
  end.

(** The entries of the index: each key of each document once. *)
Definition index_entries (c : Collection) : list (option string) :=
  c ≫= λ p, remove_dups (index_keys p).

(** The store satisfies the unique index: no key belongs to two
    documents.  One document can hold a key several times. *)
Definition unique_index (c : Collection) : Prop := NoDup (index_entries c).

(** The server applies a write that turns the store [c] into [c'], or
    refuses it because it breaks the index.  The index is in force on a
    store that satisfies it; a store that does not satisfy it cannot carry
    it, and there every write is applied. *)
Definition write (c c' : Collection) : Result (list Product) :=
  if decide (unique_index c ∧ ¬ unique_index c')
  then Throw (DuplicateKey "variants.sku_1")
  else Ok c'.

(** [Product.updateOne(query, update)] after the cast of the query. *)
Definition updateOne (query : Product → Prop) `{!∀ p, Decision (query p)}
    (update : Product → Product) (c : Collection)
    : Result (UpdateResult * list Product) :=
  match list_find query c with
  | Some (i, p) =>
      await c' ← write c (<[i := update p]> c);
      Ok ({| matchedCount := 1;
             modifiedCount := if decide (update p = p) then 0 else 1 |}, c')
  | None => Ok ({| matchedCount := 0; modifiedCount := 0 |}, c)
  end.

(** *** Responses *)

Inductive Body : Type :=
  | MessageBody (message : string)
  | ErrorBody (error : string)
  | ThrownBody (error : DriverError)
  | ProductBody (p : Product)
  | ProductsBody (ps : list Product).

Record Response : Type := mkResponse {
  status : nat;
  body : Body
}.

(** *** Routes *)

(** [GET /products], lines 62-69. *)
Definition get_products (c : Collection) : Response :=
  try_catch
    (await products ← find c;
     Ok (mkResponse 200 (ProductsBody products)))
    (λ error, mkResponse 500 (ThrownBody error)).

(** [GET /products/:id], lines 109-119. *)
Definition get_product_by_id (id : string) (c : Collection) : Response :=
  try_catch
    (await product ← findById id c;
     match product with
     | None => Ok (mkResponse 404 (ErrorBody "Product not found"))
     | Some p => Ok (mkResponse 200 (ProductBody p))
     end)
    (λ error, mkResponse 500 (ThrownBody error)).

(** [PATCH /products/variants/:sku/stock], lines 135-151, for a body whose
    [stock] is a number. *)
Definition patch_variant_stock (k : string) (n : Z) (c : Collection)
    : Response * Collection :=
  try_catch
    (await result ← updateOne (variants_sku k) (set_positional_stock k n) c;
     if decide (modifiedCount result.1 = 0%nat)
     then Ok (mkResponse 404 (ErrorBody "Variant not found"), result.2)
     else Ok (mkResponse 200 (MessageBody "Variant stock updated successfully"),
              result.2))
    (λ error, (mkResponse 400 (ThrownBody error), c)).

(** [POST /products/:id/variants], lines 154-169; [oid] is the identifier
    the driver generates for the pushed sub-document. *)
Definition post_product_variant (oid : ObjectId) (id : string) (b : VariantBody)
    (c : Collection) : Response * Collection :=
  try_catch
    (await pid ← castObjectId id;
     await result ← updateOne (has_id pid) (push_variant (castVariant oid b)) c;
     if decide (modifiedCount result.1 = 0%nat)
     then Ok (mkResponse 404 (ErrorBody "Product not found"), result.2)
     else Ok (mkResponse 201 (MessageBody "Variant added successfully"), result.2))
    (λ error, (mkResponse 400 (ThrownBody error), c)).

(** [DELETE /products/variants/:sku], lines 185-200. *)
Definition delete_variant_by_sku (k : string) (c : Collection)
    : Response * Collection :=
  try_catch
    (await result ← updateOne (variants_sku k) (pull_sku k) c;
     if decide (modifiedCount result.1 = 0%nat)
     then Ok (mkResponse 404 (ErrorBody "Variant not found"), result.2)
     else Ok (mkResponse 200 (MessageBody "Variant deleted successfully"), result.2))
    (λ error, (mkResponse 500 (ThrownBody error), c)).

(** *** Predicates of the specification *)

(** Every variant of the store, product after product. *)
Definition all_variants (c : Collection) : list Variant := c ≫= variants.

(** The skus present in the store, with repetitions. *)
Definition skus (c : Collection) : list string := omap sku (all_variants c).

(** Global sku uniqueness. *)
Definition sku_unique (c : Collection) : Prop := NoDup (skus c).

(** [p'] is [p] in every field but [variants]. *)
Definition same_but_variants (p p' : Product) : Prop :=
  _id p' = _id p ∧ name p' = name p ∧ description p' = description p ∧
  base_price p' = base_price p ∧ category p' = category p ∧
  brand p' = brand p ∧ tags p' = tags p ∧
  created_at p' = created_at p ∧ updated_at p' = updated_at p.

(** [v'] is [v] in every field but [stock]. *)
Definition same_but_stock (v v' : Variant) : Prop :=
  v_id v' = v_id v ∧ color v' = color v ∧ size v' = size v ∧
  sku v' = sku v ∧ price_adjustment v' = price_adjustment v.

(** The stock of [v'] is [n] if [v] carries sku [k], the stock of [v]
    otherwise, and nothing else differs. *)
Definition stock_rewritten (k : string) (n : Z) (v v' : Variant) : Prop :=
  same_but_stock v v' ∧
  stock v' = if decide (has_sku k v) then Some n else stock v.

(** [p'] is [p] with the stock rewritten at sku [k], variant by variant. *)
Definition stock_rewritten_in (k : string) (n : Z) (p p' : Product) : Prop :=
  same_but_variants p p' ∧
  Forall2 (stock_rewritten k n) (variants p) (variants p').

(** *** A store to run the routes on *)

Definition red_m : Variant :=
  mkVariant 1%N (Some "Red") (Some "M") (Some 10) (Some "TS-RED-M") 0.

Definition blue_l : Variant :=
  mkVariant 2%N (Some "Blue") (Some "L") (Some 5) (Some "TS-BLUE-L") 0.

Definition tshirt_id : string := "64b000000000000000000001".

Definition tshirt : Product :=
  mkProduct 0x64b000000000000000000001%N "T-Shirt" "Cotton tee" 25 "Clothing"
    "Acme" [red_m; blue_l] ["summer"] 1000 1000.

Definition silver_15 : Variant :=
  mkVariant 3%N (Some "Silver") (Some "15-inch") (Some 7) (Some "LP-SIL-15") 100.

Definition laptop : Product :=
  mkProduct 0x64b000000000000000000002%N "Laptop" "A laptop" 1200 "Electronics"
    "Acme" [silver_15] [] 2000 2000.

Definition laptop_id : string := "64b000000000000000000002".

Definition shop : Collection := [tshirt; laptop].

(** A product without variants, and stores that hold it. *)
Definition pen : Product :=
  mkProduct 0x64b000000000000000000004%N "Pen" "A pen" 2 "Books" "Acme" [] []
    3000 3000.

Definition desk_shop : Collection := [pen; laptop].

(** A second variant under the sku of [red_m], and a product that holds
    both. *)
Definition red_m_again : Variant :=
  mkVariant 4%N (Some "Red") (Some "M") (Some 2) (Some "TS-RED-M") 5.

Definition tshirt_twice : Product :=
  with_variants tshirt [red_m; blue_l; red_m_again].

(** A product whose two variants both carry the sku of [red_m]. *)
Definition tshirt_red_only : Product :=
  with_variants tshirt [red_m; red_m_again].

(** Request bodies: one without [color], one under a sku that [tshirt]
    already holds. *)
Definition body_without_color : VariantBody :=
  mkVariantBody None (Some "S") (Some 1) (Some "TS-NEW") None.

Definition body_red_m : VariantBody :=
  mkVariantBody (Some "Red") (Some "M") (Some 2) (Some "TS-RED-M") (Some 5).


(** *** The product routes: bodies, validation, store operations *)

(** The body of [POST /products] and [PUT /products/:id]: an object of
    plain fields, those of [productSchema] as the client sent them, any of
    them possibly absent. *)
Record ProductFields : Type := mkProductFields {
  req_name : option string;
  req_description : option string;
  req_base_price : option Z;
  req_category : option string;
  req_brand : option string;
  req_variants : option (list VariantBody);
  req_tags : option (list string);
  req_created_at : option Z;
  req_updated_at : option Z
}.

(** The [enum] of [category], line 32. *)
Definition categories : list string :=
  ["Electronics"; "Clothing"; "Books"; "Home & Garden"; "Sports"].

(** The cast of a [variants] array; [fresh i] is the identifier generated
    for its element [i]. *)
Definition castVariants (fresh : nat → ObjectId) (bs : list VariantBody) : list Variant :=
  imap (λ i b, castVariant (fresh i) b) bs.

(** The validators of [variantSchema] on element [i] of [variants]. *)
Definition variant_failures (i : nat) (v : Variant) : list string :=
  let path field := "variants." +:+ pretty i +:+ "." +:+ field in
  failures (required_string (path "color") (color v)) ++
  failures (required_string (path "size") (size v)) ++
  failures (required_min0 (path "stock") (stock v)) ++
  failures (required_string (path "sku") (sku v)).

Definition checked_variants (vs : list Variant) : Checked (list Variant) :=
  match concat (imap variant_failures vs) with
  | [] => inr vs
  | paths => inl paths
  end.

(** [new Product(req.body)] and the validation of [save]: the document
    with its generated [oid] and its defaults, or the paths that fail.
    [t_created] and [t_updated] are the two readings of [Date.now]. *)
Definition new_product (oid : ObjectId) (fresh : nat → ObjectId)
    (t_created t_updated : Z) (f : ProductFields) : Checked Product :=
  match
    also (required_string "name" (req_name f))
   (also (required_string "description" (req_description f))
   (also (required_min0 "base_price" (req_base_price f))
   (also (required_enum categories "category" (req_category f))
   (also (required_string "brand" (req_brand f))
         (checked_variants (castVariants fresh (default [] (req_variants f))))))))
  with
  | inr (n, (d, (bp, (cat, (br, vs))))) =>
      inr {| _id := oid;
             name := n;
             description := d;
             base_price := bp;
             category := cat;
             brand := br;
             variants := vs;
             tags := default [] (req_tags f);
             created_at := default t_created (req_created_at f);
             updated_at := default t_updated (req_updated_at f) |}
  | inl paths => inl paths
  end.

(** The update document [findByIdAndUpdate] makes of a body: a [$set] of
    the fields the body carries.  No validator runs. *)
Definition set_fields (fresh : nat → ObjectId) (f : ProductFields) (p : Product)
    : Product :=
  {| _id := _id p;
     name := default (name p) (req_name f);
     description := default (description p) (req_description f);
     base_price := default (base_price p) (req_base_price f);
     category := default (category p) (req_category f);
     brand := default (brand p) (req_brand f);
     variants := default (variants p) (castVariants fresh <$> req_variants f);
     tags := default (tags p) (req_tags f);
     created_at := default (created_at p) (req_created_at f);
     updated_at := default (updated_at p) (req_updated_at f) |}.

(** [Product.find(query)] *)
Definition find_where (query : Product → Prop) `{!∀ p, Decision (query p)}
    (c : Collection) : Result (list Product) :=
  Ok (filter query c).

(** [Product.findByIdAndUpdate(id, update, { new: true })]: the updated
    document, or [null]. *)
Definition findByIdAndUpdate (id : string) (update : Product → Product)
    (c : Collection) : Result (option Product * list Product) :=
  await oid ← castObjectId id;
  match list_find (has_id oid) c with
  | Some (i, p) =>
      await c' ← write c (<[i := update p]> c);
      Ok (Some (update p), c')
  | None => Ok (None, c)
  end.

(** [Product.findByIdAndDelete(id)]: the deleted document, or [null].  A
    delete adds no key to the index. *)
Definition findByIdAndDelete (id : string) (c : Collection)
    : Result (option Product * list Product) :=
  await oid ← castObjectId id;
  match list_find (has_id oid) c with
  | Some (i, p) => Ok (Some p, delete i c)
  | None => Ok (None, c)
  end.

(** A document satisfies [{ category: cat }]. *)
Definition has_category (cat : string) (p : Product) : Prop := category p = cat.

#[global] Instance has_category_dec cat p : Decision (has_category cat p).
Proof. unfold has_category. apply _. Defined.

(** An array element satisfies [{ color: col }]. *)
Definition has_color (col : string) (v : Variant) : Prop := color v = Some col.

#[global] Instance has_color_dec col v : Decision (has_color col v).
Proof. unfold has_color. apply _. Defined.

(** A document satisfies [{ 'variants.color': col }]. *)
Definition variants_color (col : string) (p : Product) : Prop :=
  Exists (has_color col) (variants p).

#[global] Instance variants_color_dec col p : Decision (variants_color col p).
Proof. unfold variants_color. apply _. Defined.

(** *** The product routes *)

(** The answer of [POST /products]: the saved product, or the message of
    the error. *)
Inductive SaveBody : Type :=
  | CreatedBody (p : Product)
  | RejectedBody (error : Thrown).

Record SaveResponse : Type := mkSaveResponse {
  save_status : nat;
  save_body : SaveBody
}.

(** [POST /products], lines 51-59.  [save] inserts the document at the end
    of the store order. *)
Definition post_product (oid : ObjectId) (fresh : nat → ObjectId)
    (t_created t_updated : Z) (f : ProductFields) (c : Collection)
    : SaveResponse * Collection :=
  match new_product oid fresh t_created t_updated f with
  | inr product =>
      try_catch
        (await c' ← write c (c ++ [product]);
         Ok (mkSaveResponse 201 (CreatedBody product), c'))
        (λ error, (mkSaveResponse 400 (RejectedBody (ThrownDriver error)), c))
  | inl paths => (mkSaveResponse 400 (RejectedBody (ThrownValidation paths)), c)
  end.

(** [GET /products/category/:category], lines 72-79. *)
Definition get_products_by_category (cat : string) (c : Collection) : Response :=
  try_catch
    (await products ← find_where (has_category cat) c;
     Ok (mkResponse 200 (ProductsBody products)))
    (λ error, mkResponse 500 (ThrownBody error)).

(** [GET /products/variants/color/:color], lines 99-106. *)
Definition get_products_by_color (col : string) (c : Collection) : Response :=
  try_catch
    (await products ← find_where (variants_color col) c;
     Ok (mkResponse 200 (ProductsBody products)))
    (λ error, mkResponse 500 (ThrownBody error)).

(** [PUT /products/:id], lines 122-132, for a body of plain fields. *)
Definition put_product (fresh : nat → ObjectId) (id : string) (f : ProductFields)
    (c : Collection) : Response * Collection :=
  try_catch
    (await found ← findByIdAndUpdate id (set_fields fresh f) c;
     match found.1 with
     | None => Ok (mkResponse 404 (ErrorBody "Product not found"), found.2)
     | Some product => Ok (mkResponse 200 (ProductBody product), found.2)
     end)
    (λ error, (mkResponse 400 (ThrownBody error), c)).

(** [DELETE /products/:id], lines 172-182. *)
Definition delete_product (id : string) (c : Collection) : Response * Collection :=
  try_catch
    (await found ← findByIdAndDelete id c;
     match found.1 with
     | None => Ok (mkResponse 404 (ErrorBody "Product not found"), found.2)
     | Some product =>
         Ok (mkResponse 200 (MessageBody "Product deleted successfully"), found.2)
     end)
    (λ error, (mkResponse 500 (ThrownBody error), c)).

(** *** What the schema asks of a stored document *)

Definition present_string (x : option string) : Prop :=
  ∃ s, x = Some s ∧ s ≠ "".

Definition valid_variant (v : Variant) : Prop :=
  present_string (color v) ∧ present_string (size v) ∧
  (∃ n, stock v = Some n ∧ 0 ≤ n) ∧ present_string (sku v).

Definition valid_product (p : Product) : Prop :=
  name p ≠ "" ∧ description p ≠ "" ∧ 0 ≤ base_price p ∧
  category p ∈ categories ∧ brand p ≠ "" ∧
  Forall valid_variant (variants p).

(** What the schema asks of a request body. *)
Definition acceptable_variant (b : VariantBody) : Prop :=
  present_string (body_color b) ∧ present_string (body_size b) ∧
  (∃ n, body_stock b = Some n ∧ 0 ≤ n) ∧ present_string (body_sku b).

Definition acceptable (f : ProductFields) : Prop :=
  present_string (req_name f) ∧ present_string (req_description f) ∧
  (∃ n, req_base_price f = Some n ∧ 0 ≤ n) ∧
  (∃ s, req_category f = Some s ∧ s ∈ categories) ∧
  present_string (req_brand f) ∧
  Forall acceptable_variant (default [] (req_variants f)).

(** Product identifiers are unique in the store. *)
Definition id_unique (c : Collection) : Prop := NoDup (_id <$> c).

(** *** Bodies to run the product routes on *)

Definition no_fields : ProductFields :=
  mkProductFields None None None None None None None None None.

Definition mug_fields : ProductFields :=
  mkProductFields (Some "Mug") (Some "A mug") (Some 8) (Some "Home & Garden")
    (Some "Acme")
    (Some [mkVariantBody (Some "White") (Some "L") (Some 4) (Some "MUG-W-L") None])
    None None None.

Definition mug_id : string := "64b000000000000000000003".

Definition price_fields (n : Z) : ProductFields :=
  mkProductFields None None (Some n) None None None None None None.

End Catalog.

(** ** The smaller server (src/server.js, lines 206-382) *)

Module Minimal.

(** [VariantSchema], lines 227-231: no [_id], no [sku]. *)
Record Variant : Type := mkVariant {
  color : option string;
  size : option string;
  stock : Z
}.

(** [ProductSchema], lines 233-238, with [timestamps: true]. *)
Record Product : Type := mkProduct {
  _id : ObjectId;
  name : string;
  price : Z;
  category : string;
  variants : list Variant;
  createdAt : Z;
  updatedAt : Z
}.

Abbreviation Collection := (list Product) (only parsing).

(** An object literal of [sampleProducts]: no [_id], no timestamps. *)
Record Sample : Type := mkSample {
  sample_name : string;
  sample_price : Z;
  sample_category : string;
  sample_variants : list Variant
}.

(** [sampleProducts], lines 245-273. *)
Definition sampleProducts : list Sample :=
  [ mkSample "T-Shirt" 25 "Clothing"
      [ mkVariant (Some "Red") (Some "M") 10;
        mkVariant (Some "Blue") (Some "L") 5 ];
    mkSample "Laptop" 1200 "Electronics"
      [ mkVariant (Some "Silver") (Some "15-inch") 7;
        mkVariant (Some "Black") (Some "13-inch") 3 ];
    mkSample "Sneakers" 80 "Footwear"
      [ mkVariant (Some "White") (Some "42") 15;
        mkVariant (Some "Black") (Some "40") 8 ] ].

Definition has_id (oid : ObjectId) (p : Product) : Prop := _id p = oid.

#[global] Instance has_id_dec oid p : Decision (has_id oid p).
Proof. unfold has_id. apply _. Defined.

(** [Product.find()] *)
Definition find (c : Collection) : Result (list Product) := Ok c.

(** [Product.findById(id)] *)
Definition findById (id : string) (c : Collection) : Result (option Product) :=
  await oid ← castObjectId id;
  Ok (snd <$> list_find (has_id oid) c).

Inductive Body : Type :=
  | ErrorBody (error : string)
  | ProductsBody (ps : list Product)
  | SamplesBody (ss : list Sample)
  | VariantsBody (vs : list Variant).

Record Response : Type := mkResponse {
  status : nat;
  body : Body
}.

(** [GET /products], lines 280-287. *)
Definition get_products (c : Collection) : Response :=
  try_catch
    (await products ← find c;
     Ok (mkResponse 200
           (if bool_decide (length products ≠ 0%nat)
            then ProductsBody products
            else SamplesBody sampleProducts)))
    (λ err, mkResponse 200 (SamplesBody sampleProducts)).

(** [GET /products/:id/variants], lines 300-308. *)
Definition get_product_variants (id : string) (c : Collection) : Response :=
  try_catch
    (await product ← findById id c;
     match product with
     | None => Ok (mkResponse 404 (ErrorBody "Product not found"))
     | Some p => Ok (mkResponse 200 (VariantsBody (variants p)))
     end)
    (λ err, mkResponse 400 (ErrorBody "Invalid product ID")).


(** *** The other routes: bodies, validation, store operations *)

(** An element of [variants] in a request body. *)
Record VariantFields : Type := mkVariantFields {
  req_color : option string;
  req_size : option string;
  req_stock : option Z
}.

(** The body of [POST /products] and [PUT /products/:id]: an object of
    plain fields, the declared fields of [ProductSchema] as the client sent
    them.  A body of update operators is another update document; the one
    with [$inc] on [price] is [inc_price] below. *)
Record ProductFields : Type := mkProductFields {
  req_name : option string;
  req_price : option Z;
  req_category : option string;
  req_variants : option (list VariantFields)
}.

(** The cast to [VariantSchema]: [stock] defaults to 0. *)
Definition castVariant (b : VariantFields) : Variant :=
  {| color := req_color b;
     size := req_size b;
     stock := default 0 (req_stock b) |}.

Definition castVariants (bs : list VariantFields) : list Variant :=
  castVariant <$> bs.

(** [new Product(req.body)] and the validation of [save]; with
    [timestamps: true] both dates are the time [now] of the save. *)
Definition new_product (oid : ObjectId) (now : Z) (f : ProductFields)
    : Checked Product :=
  match
    also (required_string "name" (req_name f))
   (also (required_min0 "price" (req_price f))
         (required_string "category" (req_category f)))
  with
  | inr (n, (pr, cat)) =>
      inr {| _id := oid;
             name := n;
             price := pr;
             category := cat;
             variants := castVariants (default [] (req_variants f));
             createdAt := now;
             updatedAt := now |}
  | inl paths => inl paths
  end.

(** The validators that [runValidators: true] runs: those of the paths the
    body sets. *)
Definition update_failures (f : ProductFields) : list string :=
  when_set (required_string "name") (req_name f) ++
  when_set (required_min0 "price") (req_price f) ++
  when_set (required_string "category") (req_category f).

(** The update document of a body of plain fields: a [$set] of the fields
    the body carries and, with [timestamps: true], of [updatedAt]. *)
Definition set_fields (now : Z) (f : ProductFields) (p : Product) : Product :=
  {| _id := _id p;
     name := default (name p) (req_name f);
     price := default (price p) (req_price f);
     category := default (category p) (req_category f);
     variants := default (variants p) (castVariants <$> req_variants f);
     createdAt := createdAt p;
     updatedAt := now |}.

(** The update document of the body [{ "$inc": { "price": d } }], which
    line 324 passes on as it is: [price] moves by [d] and, with
    [timestamps: true], [updatedAt] is set.  No validator runs on [$inc]. *)
Definition inc_price (now d : Z) (p : Product) : Product :=
  {| _id := _id p;
     name := name p;
     price := price p + d;
     category := category p;
     variants := variants p;
     createdAt := createdAt p;
     updatedAt := now |}.

Definition has_category (cat : string) (p : Product) : Prop := category p = cat.

#[global] Instance has_category_dec cat p : Decision (has_category cat p).
Proof. unfold has_category. apply _. Defined.

(** [Product.find(query)] *)
Definition find_where (query : Product → Prop) `{!∀ p, Decision (query p)}
    (c : Collection) : Result (list Product) :=
  Ok (filter query c).

(** What an awaited call of a writing route resolves to or throws. *)
Definition Attempt (A : Type) : Type := (Thrown + A)%type.

Definition attempt_bind {A B} (a : Attempt A) (k : A → Attempt B) : Attempt B :=
  match a with
  | inr x => k x
  | inl error => inl error
  end.

Notation "'attempt' x ← a ; k" := (attempt_bind a (λ x, k))
  (at level 10, x name, a at level 100, k at level 200, only parsing).

Definition cast_id (id : string) : Attempt ObjectId :=
  match castObjectId id with
  | Ok oid => inr oid
  | Throw e => inl (ThrownDriver e)
  end.

Definition validated (paths : list string) : Attempt unit :=
  match paths with
  | [] => inr ()
  | _ :: _ => inl (ThrownValidation paths)
  end.

Definition attempt_catch {A} (body : Attempt A) (handler : Thrown → A) : A :=
  match body with
  | inr a => a
  | inl error => handler error
  end.

(** [Product.findByIdAndUpdate(id, update, { new: true, runValidators:
    true })]: the query is cast, the validators run, the first document
    with the identifier is updated. *)
Definition findByIdAndUpdate (id : string) (failing : list string)
    (update : Product → Product) (c : Collection)
    : Attempt (option Product * list Product) :=
  attempt oid ← cast_id id;
  attempt checked ← validated failing;
  match list_find (has_id oid) c with
  | Some (i, p) => inr (Some (update p), <[i := update p]> c)
  | None => inr (None, c)
  end.

(** [Product.findByIdAndDelete(id)] *)
Definition findByIdAndDelete (id : string) (c : Collection)
    : Attempt (option Product * list Product) :=
  attempt oid ← cast_id id;
  match list_find (has_id oid) c with
  | Some (i, p) => inr (Some p, delete i c)
  | None => inr (None, c)
  end.

(** *** The other routes *)

Inductive ReplyBody : Type :=
  | ListedBody (ps : list Product)
  | SavedBody (p : Product)
  | DeletedBody (message : string) (p : Product)
  | NotFoundBody (error : string)
  | ThrownBody (error : Thrown).

Record Reply : Type := mkReply {
  reply_status : nat;
  reply_body : ReplyBody
}.

(** [GET /products/category/:category], lines 290-297. *)
Definition get_products_by_category (cat : string) (c : Collection) : Reply :=
  try_catch
    (await products ← find_where (has_category cat) c;
     Ok (mkReply 200
           (ListedBody (if bool_decide (length products ≠ 0%nat)
                        then products
                        else []))))
    (λ err, mkReply 500 (ThrownBody (ThrownDriver err))).

(** [POST /products], lines 311-319. *)
Definition post_product (oid : ObjectId) (now : Z) (f : ProductFields)
    (c : Collection) : Reply * Collection :=
  match new_product oid now f with
  | inr saved => (mkReply 201 (SavedBody saved), c ++ [saved])
  | inl paths => (mkReply 400 (ThrownBody (ThrownValidation paths)), c)
  end.

(** [PUT /products/:id], lines 322-330, for a body of plain fields. *)
Definition put_product (now : Z) (id : string) (f : ProductFields)
    (c : Collection) : Reply * Collection :=
  attempt_catch
    (attempt found ← findByIdAndUpdate id (update_failures f) (set_fields now f) c;
     match found.1 with
     | None => inr (mkReply 404 (NotFoundBody "Product not found"), found.2)
     | Some product => inr (mkReply 200 (SavedBody product), found.2)
     end)
    (λ err, (mkReply 400 (ThrownBody err), c)).

(** [PUT /products/:id], lines 322-330, for the body
    [{ "$inc": { "price": d } }]. *)
Definition put_product_inc (now : Z) (id : string) (d : Z) (c : Collection)
    : Reply * Collection :=
  attempt_catch
    (attempt found ← findByIdAndUpdate id [] (inc_price now d) c;
     match found.1 with
     | None => inr (mkReply 404 (NotFoundBody "Product not found"), found.2)
     | Some product => inr (mkReply 200 (SavedBody product), found.2)
     end)
    (λ err, (mkReply 400 (ThrownBody err), c)).

(** [DELETE /products/:id], lines 333-341. *)
Definition delete_product (id : string) (c : Collection)
    : Reply * Collection :=
  attempt_catch
    (attempt found ← findByIdAndDelete id c;
     match found.1 with
     | None => inr (mkReply 404 (NotFoundBody "Product not found"), found.2)
     | Some product =>
         inr (mkReply 200 (DeletedBody "Product deleted" product), found.2)
     end)
    (λ err, (mkReply 500 (ThrownBody err), c)).

(** *** What the schema asks *)

Definition valid_product (p : Product) : Prop :=
  name p ≠ "" ∧ 0 ≤ price p ∧ category p ≠ "".

Definition acceptable (f : ProductFields) : Prop :=
  (∃ s, req_name f = Some s ∧ s ≠ "") ∧
  (∃ n, req_price f = Some n ∧ 0 ≤ n) ∧
  (∃ s, req_category f = Some s ∧ s ≠ "").

(** *** A store and bodies to run the routes on *)

Definition lamp_id : string := "64b0000000000000000000a1".

Definition lamp : Product :=
  mkProduct 0x64b0000000000000000000a1%N "Lamp" 30 "Home"
    [mkVariant (Some "Black") None 2] 100 100.

Definition desk : Product :=
  mkProduct 0x64b0000000000000000000a2%N "Desk" 150 "Home" [] 200 250.

Definition office : Collection := [lamp; desk].

Definition price_fields (n : Z) : ProductFields :=
  mkProductFields None (Some n) None None.

Definition chair_fields : ProductFields :=
  mkProductFields (Some "Chair") (Some 45) (Some "Home")
    (Some [mkVariantFields (Some "Grey") None None]).

End Minimal.

(** ** First match in a list, rewritten or pulled *)

Section first_match.
Context {A : Type} (P : A → Prop) `{!∀ x, Decision (P x)}.

(** The first match splits the list: nothing before it matches. *)
Lemma list_find_split (l : list A) i x :
  list_find P l = Some (i, x) →
  ∃ l1 l2, l = l1 ++ x :: l2 ∧ length l1 = i ∧ Forall (λ y, ¬ P y) l1 ∧ P x.
Proof.
  intros (Hi & HP & Hlt)%list_find_Some.
  exists (take i l), (drop (S i) l). split_and!; [| |  | done].
  - by rewrite take_drop_middle.
  - apply length_take_le. apply lookup_lt_Some in Hi. lia.
  - apply Forall_lookup. intros j y Hj.
    pose proof (lookup_lt_Some _ _ _ Hj) as Hlen.
    rewrite length_take in Hlen.
    rewrite lookup_take_lt in Hj by lia. apply (Hlt j y Hj). lia.
Qed.

Lemma list_find_middle (l1 l2 : list A) x :
  Forall (λ y, ¬ P y) l1 → P x →
  list_find P (l1 ++ x :: l2) = Some (length l1, x).
Proof.
  intros Hl1 HP. apply list_find_Some. split_and!; [| done |].
  - by rewrite list_lookup_middle.
  - intros j y Hj Hlt. rewrite lookup_app_l in Hj by done.
    eapply Forall_lookup_1 in Hl1; eauto.
Qed.

Lemma insert_middle (l1 l2 : list A) x y :
  <[length l1 := y]> (l1 ++ x :: l2) = l1 ++ y :: l2.
Proof. induction l1 as [|z l1 IH]; simpl; [done | by rewrite IH]. Qed.

Lemma filter_none (l : list A) :
  Forall (λ y, ¬ P y) l → filter P l = [].
Proof.
  induction 1 as [|y l Hy _ IH]; [done |].
  by rewrite filter_cons_False.
Qed.

Lemma filter_all (l : list A) :
  Forall P l → filter P l = l.
Proof.
  induction 1 as [|y l Hy _ IH]; [done |].
  rewrite filter_cons_True by done. by rewrite IH.
Qed.

Lemma filter_length_0 (l : list A) :
  length (filter P l) = 0%nat → Forall (λ y, ¬ P y) l.
Proof.
  induction l as [|y l IH]; [constructor |].
  rewrite filter_cons. case_decide; simpl; [lia |].
  intros Hl. constructor; auto.
Qed.

Lemma list_find_is_None (l : list A) :
  Forall (λ y, ¬ P y) l → list_find P l = None.
Proof. intros. by apply list_find_None. Qed.
Lemma filter_length_complement (l : list A) :
  (length (filter (λ x, ¬ P x) l) + length (filter P l))%nat = length l.
Proof.
  induction l as [|x l IH]; [done |].
  rewrite !filter_cons. destruct (decide (P x)) as [HP|HP].
  - rewrite decide_False by auto. simpl. lia.
  - rewrite decide_True by done. simpl. lia.
Qed.
End first_match.

(** ** The catalog server: what the routes do to the store *)

Module CatalogSpec.
Import Catalog.

(** *** Record updates *)

Lemma with_variants_same p : with_variants p (variants p) = p.
Proof. by destruct p. Qed.

Lemma with_variants_twice p vs ws :
  with_variants (with_variants p vs) ws = with_variants p ws.
Proof. done. Qed.

Lemma with_variants_inj p vs ws : with_variants p vs = with_variants p ws → vs = ws.
Proof. intros H. by apply (f_equal variants) in H. Qed.

Lemma same_but_variants_with p vs : same_but_variants p (with_variants p vs).
Proof. by repeat split. Qed.

Lemma same_but_stock_with v n : same_but_stock v (with_stock v n).
Proof. by repeat split. Qed.

(** *** Variants and skus of a store *)

Lemma all_variants_cons p c : all_variants (p :: c) = variants p ++ all_variants c.
Proof. done. Qed.

Lemma all_variants_app c1 c2 :
  all_variants (c1 ++ c2) = all_variants c1 ++ all_variants c2.
Proof. unfold all_variants. apply bind_app. Qed.

Lemma all_variants_middle c1 p c2 :
  all_variants (c1 ++ p :: c2) = all_variants c1 ++ variants p ++ all_variants c2.
Proof. by rewrite all_variants_app, all_variants_cons. Qed.

Lemma elem_of_skus k c : k ∈ skus c ↔ Exists (has_sku k) (all_variants c).
Proof.
  unfold skus. rewrite list_elem_of_omap, Exists_exists. done.
Qed.

Lemma not_elem_of_skus k c :
  k ∉ skus c ↔ Forall (λ v, ¬ has_sku k v) (all_variants c).
Proof.
  rewrite elem_of_skus. split.
  - apply not_Exists_Forall. apply _.
  - intros HF HE. by apply (Forall_not_Exists _ _ HF).
Qed.

Lemma no_sku_products k c :
  Forall (λ p, ¬ variants_sku k p) c ↔ Forall (λ v, ¬ has_sku k v) (all_variants c).
Proof.
  induction c as [|p c IH].
  - split; constructor.
  - rewrite all_variants_cons, Forall_cons, Forall_app, IH.
    unfold variants_sku. split; intros [Hp Hc]; split; try done.
    + apply not_Exists_Forall; [apply _ | done].
    + intros HE. by apply (Forall_not_Exists _ _ Hp).
Qed.

(** The store splits at the document that [{ 'variants.sku': k }] selects
    and, inside it, at the element the positional operator selects. *)
Lemma first_variant_with_sku k c :
  k ∈ skus c →
  ∃ c1 p c2 v1 v v2,
    c = c1 ++ p :: c2 ∧ variants p = v1 ++ v :: v2 ∧ has_sku k v ∧
    Forall (λ w, ¬ has_sku k w) (all_variants c1) ∧
    Forall (λ w, ¬ has_sku k w) v1 ∧
    list_find (variants_sku k) c = Some (length c1, p) ∧
    list_find (has_sku k) (variants p) = Some (length v1, v).
Proof.
  intros Hk. apply elem_of_skus in Hk.
  destruct (list_find (variants_sku k) c) as [[i p]|] eqn:Hfind.
  - destruct (list_find_split _ _ _ _ Hfind) as (c1 & c2 & -> & <- & Hc1 & Hp).
    destruct (list_find (has_sku k) (variants p)) as [[j v]|] eqn:Hv.
    + destruct (list_find_split _ _ _ _ Hv) as (v1 & v2 & Hvs & <- & Hv1 & Hkv).
      exists c1, p, c2, v1, v, v2. split_and!; try done.
      by apply no_sku_products.
    + apply list_find_None in Hv. exfalso.
      by apply (Forall_not_Exists _ _ Hv).
  - apply list_find_None, no_sku_products in Hfind. exfalso.
    by apply (Forall_not_Exists _ _ Hfind).
Qed.

Lemma find_no_sku k c : k ∉ skus c → list_find (variants_sku k) c = None.
Proof.
  intros Hk. apply list_find_None, no_sku_products. by apply not_elem_of_skus.
Qed.

(** *** The unique index *)

Lemma index_entries_middle c1 p c2 :
  index_entries (c1 ++ p :: c2) =
  index_entries c1 ++ remove_dups (index_keys p) ++ index_entries c2.
Proof. unfold index_entries. by rewrite bind_app, bind_cons. Qed.

Lemma index_entries_app c1 c2 :
  index_entries (c1 ++ c2) = index_entries c1 ++ index_entries c2.
Proof. unfold index_entries. by rewrite bind_app. Qed.

Lemma elem_of_index_entries key c :
  key ∈ index_entries c ↔ ∃ p, p ∈ c ∧ key ∈ index_keys p.
Proof.
  unfold index_entries. rewrite list_elem_of_bind. split.
  - intros (p & Hkey & Hp). exists p. by rewrite elem_of_remove_dups in Hkey.
  - intros (p & Hp & Hkey). exists p. by rewrite elem_of_remove_dups.
Qed.

Lemma index_keys_some k p : Some k ∈ index_keys p ↔ k ∈ omap sku (variants p).
Proof.
  unfold index_keys. rewrite list_elem_of_omap.
  destruct (variants p) as [|v vs].
  - split; [by intros [=]%list_elem_of_singleton | by intros (w & Hw%elem_of_nil & _)].
  - rewrite list_elem_of_fmap. split.
    + intros (w & Hk & Hw). by exists w.
    + intros (w & Hw & Hk). by exists w.
Qed.

Lemma index_entries_some k c : Some k ∈ index_entries c ↔ k ∈ skus c.
Proof.
  rewrite elem_of_index_entries. unfold skus, all_variants.
  rewrite list_elem_of_omap. split.
  - intros (p & Hp & (v & Hv & Hk)%index_keys_some%list_elem_of_omap).
    exists v. split; [| done]. apply list_elem_of_bind. by exists p.
  - intros (v & (p & Hv & Hp)%list_elem_of_bind & Hk).
    exists p. split; [done |]. apply index_keys_some, list_elem_of_omap. by exists v.
Qed.

(** A document of a store that satisfies the index is replaced: the index
    is still satisfied when every key of the new document is a key of the
    old one or a key of no other document. *)
Lemma unique_index_replace c1 p p' c2 :
  unique_index (c1 ++ p :: c2) →
  (∀ key, key ∈ index_keys p' →
          key ∈ index_keys p ∨ ((key ∉ index_entries c1) ∧ (key ∉ index_entries c2))) →
  unique_index (c1 ++ p' :: c2).
Proof.
  unfold unique_index. rewrite !index_entries_middle.
  intros (Hn1 & Hd1 & Hn23)%NoDup_app Hkeys.
  apply NoDup_app in Hn23 as (_ & Hd2 & Hn2).
  apply NoDup_app. split_and!; [done | |].
  - intros x Hx1 [Hxp | Hx2]%elem_of_app.
    + rewrite elem_of_remove_dups in Hxp.
      destruct (Hkeys x Hxp) as [Hin | [Hno _]]; [| done].
      apply (Hd1 x Hx1), elem_of_app. left. by rewrite elem_of_remove_dups.
    + apply (Hd1 x Hx1), elem_of_app. by right.
  - apply NoDup_app. split_and!; [apply NoDup_remove_dups | | done].
    intros x Hxp Hx2. rewrite elem_of_remove_dups in Hxp.
    destruct (Hkeys x Hxp) as [Hin | [_ Hno]]; [| done].
    apply (Hd2 x); [by rewrite elem_of_remove_dups | done].
Qed.

Lemma write_admitted (c c' : list Product) :
  (unique_index c → unique_index c') → write c c' = Ok c'.
Proof.
  intros Hkept. unfold write. rewrite decide_False; [done |].
  intros [Hc Hc']. by apply Hc', Hkept.
Qed.

Lemma write_refused (c c' : list Product) :
  unique_index c → ¬ unique_index c' →
  write c c' = Throw (DuplicateKey "variants.sku_1").
Proof. intros Hc Hc'. unfold write. by rewrite decide_True. Qed.

Lemma write_cases (c c' : list Product) :
  write c c' = Ok c' ∨
  (unique_index c ∧ ¬ unique_index c' ∧
   write c c' = Throw (DuplicateKey "variants.sku_1")).
Proof.
  unfold write. case_decide as Hd; [right | by left].
  by destruct Hd.
Qed.

(** A write that the index admits leaves a store that satisfies the index,
    when the store did before. *)
Lemma write_unique_index (c c' r : list Product) :
  write c c' = Ok r → unique_index c → unique_index r.
Proof.
  unfold write. case_decide as Hd; [done |]. intros [= <-] Hc.
  destruct (decide (unique_index c')) as [|Hc']; [done |].
  destruct Hd. by split.
Qed.

(** *** [updateOne] *)

Lemma updateOne_admitted query `{!∀ p, Decision (query p)} update
    (c1 : list Product) p c2 :
  list_find query (c1 ++ p :: c2) = Some (length c1, p) →
  (unique_index (c1 ++ p :: c2) → unique_index (c1 ++ update p :: c2)) →
  updateOne query update (c1 ++ p :: c2) =
    Ok ({| matchedCount := 1;
           modifiedCount := if decide (update p = p) then 0 else 1 |},
        c1 ++ update p :: c2).
Proof.
  intros Hfind Hkept. unfold updateOne. rewrite Hfind, insert_middle.
  by rewrite (write_admitted _ _ Hkept).
Qed.

Lemma updateOne_refused query `{!∀ p, Decision (query p)} update
    (c1 : list Product) p c2 :
  list_find query (c1 ++ p :: c2) = Some (length c1, p) →
  unique_index (c1 ++ p :: c2) → ¬ unique_index (c1 ++ update p :: c2) →
  updateOne query update (c1 ++ p :: c2) = Throw (DuplicateKey "variants.sku_1").
Proof.
  intros Hfind Hc Hc'. unfold updateOne. rewrite Hfind, insert_middle.
  by rewrite (write_refused _ _ Hc Hc').
Qed.

Lemma updateOne_store_none query `{!∀ p, Decision (query p)} update (c : list Product) :
  list_find query c = None →
  updateOne query update c = Ok (mkUpdateResult 0 0, c).
Proof. intros Hfind. unfold updateOne. by rewrite Hfind. Qed.

(** What [updateOne] leaves: the store as it was, or the store with the
    first match updated. *)
Lemma updateOne_cases query `{!∀ p, Decision (query p)} update (c : list Product) :
  updateOne query update c = Ok (mkUpdateResult 0 0, c) ∨
  updateOne query update c = Throw (DuplicateKey "variants.sku_1") ∨
  ∃ i p, c !! i = Some p ∧ query p ∧
         updateOne query update c =
           Ok ({| matchedCount := 1;
                  modifiedCount := if decide (update p = p) then 0 else 1 |},
               <[i := update p]> c).
Proof.
  unfold updateOne. destruct (list_find query c) as [[i p]|] eqn:Hfind; [| by left].
  right. apply list_find_Some in Hfind as (Hi & Hp & _).
  destruct (write_cases c (<[i := update p]> c)) as [-> | (_ & _ & ->)].
  - right. by exists i, p.
  - by left.
Qed.

(** *** [PATCH /products/variants/:sku/stock] *)

Lemma index_keys_with_stock p v1 v v2 n :
  variants p = v1 ++ v :: v2 →
  index_keys (with_variants p (v1 ++ with_stock v n :: v2)) = index_keys p.
Proof.
  intros Hvs. unfold index_keys. simpl. rewrite Hvs.
  destruct v1; simpl; by rewrite ?fmap_app.
Qed.

(** The stock route on a store split at the first variant with the sku. *)
Lemma patch_variant_stock_at k n c1 p c2 v1 v v2 :
  variants p = v1 ++ v :: v2 → has_sku k v →
  Forall (λ w, ¬ has_sku k w) (all_variants c1) →
  Forall (λ w, ¬ has_sku k w) v1 →
  patch_variant_stock k n (c1 ++ p :: c2) =
    (if decide (stock v = Some n)
     then mkResponse 404 (ErrorBody "Variant not found")
     else mkResponse 200 (MessageBody "Variant stock updated successfully"),
     c1 ++ with_variants p (v1 ++ with_stock v n :: v2) :: c2).
Proof.
  intros Hvs Hkv Hc1 Hv1.
  assert (list_find (variants_sku k) (c1 ++ p :: c2) = Some (length c1, p)) as Hfind.
  { apply list_find_middle; [by apply no_sku_products |].
    unfold variants_sku. rewrite Hvs. apply Exists_app. right. by left. }
  assert (list_find (has_sku k) (variants p) = Some (length v1, v)) as Hpos
    by (rewrite Hvs; by apply list_find_middle).
  assert (set_positional_stock k n p
          = with_variants p (v1 ++ with_stock v n :: v2)) as Hset.
  { unfold set_positional_stock. by rewrite Hpos, Hvs, insert_middle. }
  unfold patch_variant_stock.
  rewrite (updateOne_admitted _ _ c1 p c2 Hfind); last first.
  { intros Hc. apply (unique_index_replace c1 p _ c2 Hc).
    intros key Hkey. left. rewrite Hset in Hkey.
    by rewrite (index_keys_with_stock p v1 v v2 n Hvs) in Hkey. }
  simpl. rewrite Hset.
  destruct (decide (stock v = Some n)) as [Hs|Hs].
  - assert (with_stock v n = v) as Hv by (destruct v; simpl in *; by subst).
    rewrite Hv, <- Hvs, with_variants_same.
    by destruct (decide (p = p)).
  - assert (with_variants p (v1 ++ with_stock v n :: v2) ≠ p) as Hne.
    { intros Heq. apply Hs.
      rewrite <- (with_variants_same p) in Heq at 2.
      apply with_variants_inj in Heq. rewrite Hvs in Heq.
      apply app_inv_head in Heq. injection Heq as Heq.
      by rewrite <- Heq. }
    by rewrite (decide_False _ _ Hne).
Qed.

(** The route on a store that holds the sku: the stock of the first match
    is set, and the status is 404 when that leaves the document as it was. *)
Lemma patch_variant_stock_found k n c :
  k ∈ skus c →
  ∃ c1 p c2 v1 v v2,
    c = c1 ++ p :: c2 ∧ variants p = v1 ++ v :: v2 ∧ has_sku k v ∧
    Forall (λ w, ¬ has_sku k w) (all_variants c1) ∧
    Forall (λ w, ¬ has_sku k w) v1 ∧
    (patch_variant_stock k n c).2 =
      c1 ++ with_variants p (v1 ++ with_stock v n :: v2) :: c2 ∧
    status (patch_variant_stock k n c).1 =
      if decide (stock v = Some n) then 404%nat else 200%nat.
Proof.
  intros Hk.
  destruct (first_variant_with_sku k c Hk)
    as (c1 & p & c2 & v1 & v & v2 & -> & Hvs & Hkv & Hc1 & Hv1 & Hfind & Hpos).
  exists c1, p, c2, v1, v, v2. split_and!; try done.
  - by rewrite (patch_variant_stock_at k n c1 p c2 v1 v v2).
  - rewrite (patch_variant_stock_at k n c1 p c2 v1 v v2) by done.
    simpl. by case_decide.
Qed.

Lemma patch_variant_stock_absent k n c :
  k ∉ skus c →
  patch_variant_stock k n c = (mkResponse 404 (ErrorBody "Variant not found"), c).
Proof.
  intros Hk. unfold patch_variant_stock, updateOne.
  by rewrite (find_no_sku k c Hk).
Qed.

Lemma stock_rewritten_refl k n vs :
  Forall (λ w, ¬ has_sku k w) vs → Forall2 (stock_rewritten k n) vs vs.
Proof.
  intros Hvs. apply Forall_Forall2_diag.
  eapply Forall_impl; [exact Hvs |]. intros v Hv. split.
  - by repeat split.
  - by rewrite decide_False.
Qed.

Lemma stock_rewritten_in_refl k n c :
  Forall (λ w, ¬ has_sku k w) (all_variants c) →
  Forall2 (stock_rewritten_in k n) c c.
Proof.
  induction c as [|p c IH]; [constructor |].
  rewrite all_variants_cons, Forall_app. intros [Hp Hc].
  constructor; [| by apply IH].
  split; [by repeat split | by apply stock_rewritten_refl].
Qed.

Lemma stock_rewritten_at_match k n v1 v v2 :
  has_sku k v →
  Forall (λ w, ¬ has_sku k w) v1 → Forall (λ w, ¬ has_sku k w) v2 →
  Forall2 (stock_rewritten k n) (v1 ++ v :: v2) (v1 ++ with_stock v n :: v2).
Proof.
  intros Hv Hv1 Hv2. apply Forall2_app; [by apply stock_rewritten_refl |].
  constructor; [| by apply stock_rewritten_refl].
  split; [apply same_but_stock_with |].
  by rewrite decide_True.
Qed.

(** C1. On a store that holds exactly one variant with sku [k], the stock
    route changes the [stock] of that variant to [n] and nothing else: every
    product keeps every field but [variants] ([updated_at] included), every
    variant keeps every field but [stock], and the stock changes only where
    the sku is [k]. *)
Theorem patch_variant_stock_frame k n c :
  length (filter (has_sku k) (all_variants c)) = 1%nat →
  Forall2 (stock_rewritten_in k n) c (patch_variant_stock k n c).2.
Proof.
  intros Hone.
  assert (k ∈ skus c) as Hk.
  { destruct (decide (k ∈ skus c)) as [|Hno]; [done |].
    apply not_elem_of_skus in Hno.
    by rewrite (filter_none (has_sku k)) in Hone. }
  destruct (patch_variant_stock_found k n c Hk)
    as (c1 & p & c2 & v1 & v & v2 & -> & Hvs & Hkv & Hc1 & Hv1 & -> & _).
  rewrite all_variants_middle, Hvs, !filter_app in Hone.
  rewrite !(filter_none (has_sku k)) in Hone by done.
  rewrite filter_cons_True in Hone by done.
  simpl in Hone. rewrite length_app in Hone.
  assert (Forall (λ w, ¬ has_sku k w) v2) as Hv2
    by (apply (filter_length_0 (has_sku k)); lia).
  assert (Forall (λ w, ¬ has_sku k w) (all_variants c2)) as Hc2
    by (apply (filter_length_0 (has_sku k)); lia).
  apply Forall2_app; [by apply stock_rewritten_in_refl |].
  constructor; [| by apply stock_rewritten_in_refl].
  split; [apply same_but_variants_with |].
  simpl. rewrite Hvs. by apply stock_rewritten_at_match.
Qed.

Lemma patch_variant_stock_frame_witness :
  length (filter (has_sku "TS-BLUE-L") (all_variants shop)) = 1%nat ∧
  Forall2 (stock_rewritten_in "TS-BLUE-L" 3) shop
    (patch_variant_stock "TS-BLUE-L" 3 shop).2.
Proof.
  split; [reflexivity |].
  apply (patch_variant_stock_frame "TS-BLUE-L" 3 shop). reflexivity.
Defined.

(** After the route, a store that held the sku holds a variant with that
    sku and the requested stock, whatever its sign. *)
Lemma patch_variant_stock_stored k n c :
  k ∈ skus c →
  Exists (λ v, has_sku k v ∧ stock v = Some n)
    (all_variants (patch_variant_stock k n c).2).
Proof.
  intros Hk.
  destruct (patch_variant_stock_found k n c Hk)
    as (c1 & p & c2 & v1 & v & v2 & -> & Hvs & Hkv & Hc1 & Hv1 & -> & _).
  rewrite all_variants_middle. simpl.
  apply Exists_app. right. apply Exists_app. left.
  apply Exists_app. right. by constructor.
Qed.

(** The status of the stock route is 404 exactly when no variant has the
    sku or the selected variant already has the requested stock. *)
Lemma patch_variant_stock_404 k n c :
  status (patch_variant_stock k n c).1 = 404%nat ↔
  k ∉ skus c ∨
  ∃ p i v, snd <$> list_find (variants_sku k) c = Some p ∧
           list_find (has_sku k) (variants p) = Some (i, v) ∧
           stock v = Some n.
Proof.
  destruct (decide (k ∈ skus c)) as [Hk|Hk].
  - destruct (first_variant_with_sku k c Hk)
      as (c1 & p & c2 & v1 & v & v2 & Hc & Hvs & Hkv & Hc1 & Hv1 & Hfind & Hpos).
    destruct (patch_variant_stock_found k n c Hk)
      as (c1' & p' & c2' & v1' & v' & v2' & Hc' & Hvs' & Hkv' & Hc1' & Hv1'
          & _ & Hstatus).
    assert (list_find (variants_sku k) c = Some (length c1', p')) as Hfind'.
    { rewrite Hc'. apply list_find_middle; [by apply no_sku_products |].
      unfold variants_sku. rewrite Hvs'. apply Exists_app. right. by left. }
    assert (list_find (has_sku k) (variants p') = Some (length v1', v')) as Hpos'.
    { rewrite Hvs'. by apply list_find_middle. }
    rewrite Hstatus. split.
    + case_decide; [| done]. intros _. right. exists p', (length v1'), v'.
      by rewrite Hfind'.
    + intros [Hno | (q & i & w & Hq & Hw & Hs)]; [done |].
      rewrite Hfind' in Hq. simpl in Hq. injection Hq as <-.
      rewrite Hpos' in Hw. injection Hw as <- <-.
      by rewrite decide_True.
  - rewrite (patch_variant_stock_absent k n c Hk). simpl. split; auto.
Qed.

(** The stock route never answers 400: no value of [n] is rejected, and
    the index refuses no stock update. *)
Lemma patch_variant_stock_not_400 k n c :
  status (patch_variant_stock k n c).1 ≠ 400%nat.
Proof.
  destruct (decide (k ∈ skus c)) as [Hk|Hk].
  - destruct (patch_variant_stock_found k n c Hk)
      as (c1 & p & c2 & v1 & v & v2 & _ & _ & _ & _ & _ & _ & ->).
    by case_decide.
  - by rewrite (patch_variant_stock_absent k n c Hk).
Qed.

(** C2. The store [shop] holds a variant with sku TS-RED-M and stock 10;
    asked to set that stock to 10, the route answers 404 "Variant not
    found" and leaves the store as it was. *)
Theorem patch_same_stock_404 :
  "TS-RED-M" ∈ skus shop ∧
  patch_variant_stock "TS-RED-M" 10 shop =
    (mkResponse 404 (ErrorBody "Variant not found"), shop).
Proof.
  split; [| reflexivity].
  apply elem_of_skus. by left.
Qed.

(** C3. Asked to set the stock of TS-RED-M to -5, the route answers 200
    and the store holds that variant with stock -5. *)
Theorem patch_negative_stock_200 :
  patch_variant_stock "TS-RED-M" (-5) shop =
    (mkResponse 200 (MessageBody "Variant stock updated successfully"),
     [with_variants tshirt [with_stock red_m (-5); blue_l]; laptop]).
Proof. reflexivity. Qed.

(** *** What a variant route leaves *)

(** After each variant route the store is as it was, or one document has
    been replaced by its update. *)
Lemma patch_variant_stock_store k n c :
  (patch_variant_stock k n c).2 = c ∨
  ∃ i p, c !! i = Some p ∧
         (patch_variant_stock k n c).2 = <[i := set_positional_stock k n p]> c.
Proof.
  unfold patch_variant_stock.
  destruct (updateOne_cases (variants_sku k) (set_positional_stock k n) c)
    as [-> | [-> | (i & p & Hi & _ & ->)]]; simpl; [by left | by left |].
  right. exists i, p. split; [done |]. by case_decide.
Qed.

Lemma post_product_variant_store oid id b c :
  (post_product_variant oid id b c).2 = c ∨
  ∃ i p, c !! i = Some p ∧
         (post_product_variant oid id b c).2 =
           <[i := push_variant (castVariant oid b) p]> c.
Proof.
  unfold post_product_variant.
  destruct (castObjectId id) as [pid|e]; simpl; [| by left].
  destruct (updateOne_cases (has_id pid) (push_variant (castVariant oid b)) c)
    as [-> | [-> | (i & p & Hi & _ & ->)]]; simpl; [by left | by left |].
  right. exists i, p. split; [done |]. by case_decide.
Qed.

Lemma delete_variant_by_sku_store k c :
  (delete_variant_by_sku k c).2 = c ∨
  ∃ i p, c !! i = Some p ∧
         (delete_variant_by_sku k c).2 = <[i := pull_sku k p]> c.
Proof.
  unfold delete_variant_by_sku.
  destruct (updateOne_cases (variants_sku k) (pull_sku k) c)
    as [-> | [-> | (i & p & Hi & _ & ->)]]; simpl; [by left | by left |].
  right. exists i, p. split; [done |]. by case_decide.
Qed.

Lemma insert_keeps {B} (g : Product → B) (c : list Product) i p p' :
  c !! i = Some p → g p' = g p → g <$> <[i := p']> c = g <$> c.
Proof.
  intros Hi Hg. rewrite list_fmap_insert, Hg. apply list_insert_id.
  by rewrite list_lookup_fmap, Hi.
Qed.

(** *** [POST /products/:id/variants] *)

Lemma push_variant_changes v p : push_variant v p ≠ p.
Proof.
  intros Heq. apply (f_equal (λ q, length (variants q))) in Heq.
  simpl in Heq. rewrite length_app in Heq. simpl in Heq. lia.
Qed.

(** The route on a well-formed id that matches a product, when the index
    admits the write: the cast body is appended, whatever it holds. *)
Lemma post_product_variant_found oid id b c pid i p :
  castObjectId id = Ok pid →
  list_find (has_id pid) c = Some (i, p) →
  (unique_index c → unique_index (<[i := push_variant (castVariant oid b) p]> c)) →
  post_product_variant oid id b c =
    (mkResponse 201 (MessageBody "Variant added successfully"),
     <[i := push_variant (castVariant oid b) p]> c).
Proof.
  intros Hid Hfind Hkept. unfold post_product_variant, updateOne.
  rewrite Hid. simpl. rewrite Hfind, (write_admitted _ _ Hkept). simpl.
  by rewrite (decide_False _ _ (push_variant_changes _ p)).
Qed.

(** The same, when the index refuses the write: 400, nothing appended. *)
Lemma post_product_variant_refused oid id b c pid i p :
  castObjectId id = Ok pid →
  list_find (has_id pid) c = Some (i, p) →
  unique_index c →
  ¬ unique_index (<[i := push_variant (castVariant oid b) p]> c) →
  post_product_variant oid id b c =
    (mkResponse 400 (ThrownBody (DuplicateKey "variants.sku_1")), c).
Proof.
  intros Hid Hfind Hc Hc'. unfold post_product_variant, updateOne.
  rewrite Hid. simpl. by rewrite Hfind, (write_refused _ _ Hc Hc').
Qed.

Lemma post_product_variant_missing oid id b c pid :
  castObjectId id = Ok pid →
  list_find (has_id pid) c = None →
  post_product_variant oid id b c =
    (mkResponse 404 (ErrorBody "Product not found"), c).
Proof.
  intros Hid Hfind. unfold post_product_variant, updateOne.
  rewrite Hid. simpl. by rewrite Hfind.
Qed.

Lemma post_product_variant_malformed oid id b c e :
  castObjectId id = Throw e →
  post_product_variant oid id b c = (mkResponse 400 (ThrownBody e), c).
Proof. intros Hid. unfold post_product_variant. by rewrite Hid. Qed.

Lemma skus_middle c1 p c2 :
  skus (c1 ++ p :: c2) = skus c1 ++ omap sku (variants p) ++ skus c2.
Proof. unfold skus. by rewrite all_variants_middle, !omap_app. Qed.

Lemma index_keys_push v p :
  index_keys (push_variant v p) = sku <$> (variants p ++ [v]).
Proof. unfold index_keys. simpl. by destruct (variants p). Qed.

Lemma index_keys_variants key p :
  key ∈ sku <$> variants p → key ∈ index_keys p.
Proof. unfold index_keys. destruct (variants p); [by intros ?%elem_of_nil | done]. Qed.

(** The index admits a pushed variant whose sku no variant of the store
    carries. *)
Lemma push_fresh_admitted oid b k c1 p c2 :
  body_sku b = Some k →
  k ∉ skus (c1 ++ p :: c2) →
  unique_index (c1 ++ p :: c2) →
  unique_index (c1 ++ push_variant (castVariant oid b) p :: c2).
Proof.
  intros Hb Hk Hc. apply (unique_index_replace c1 p _ c2 Hc).
  intros key. rewrite index_keys_push, fmap_app, elem_of_app. simpl.
  rewrite Hb. intros [Hkey | ->%list_elem_of_singleton].
  - left. by apply index_keys_variants.
  - right. rewrite !index_entries_some. rewrite skus_middle in Hk.
    rewrite !elem_of_app in Hk. tauto.
Qed.

(** C4. [body_without_color] lacks the required [color]; posted to the
    T-shirt it is answered 201 and appended.  [body_red_m] carries the sku
    of a variant the T-shirt already holds; it is answered 201 and appended
    as well. *)
Theorem post_variant_not_validated :
  required_present body_without_color = false ∧
  post_product_variant 9%N tshirt_id body_without_color shop =
    (mkResponse 201 (MessageBody "Variant added successfully"),
     [with_variants tshirt [red_m; blue_l; castVariant 9%N body_without_color];
      laptop]) ∧
  body_sku body_red_m = sku red_m ∧
  post_product_variant 4%N tshirt_id body_red_m shop =
    (mkResponse 201 (MessageBody "Variant added successfully"),
     [tshirt_twice; laptop]).
Proof. by split_and!. Qed.

(** *** [DELETE /products/variants/:sku] *)

Lemma pull_sku_changes k p : variants_sku k p → pull_sku k p ≠ p.
Proof.
  intros (v & Hv & Hk)%Exists_exists Heq.
  apply (f_equal (λ q, length (variants q))) in Heq. simpl in Heq.
  assert (length (filter (λ w, ¬ has_sku k w) (variants p)) < length (variants p))%nat
    by (apply (length_filter_lt _ _ v); auto).
  lia.
Qed.

(** The route on the document that the query selects, when the index
    admits the write: every element with the sku is pulled from it. *)
Lemma delete_variant_by_sku_found k c i p :
  list_find (variants_sku k) c = Some (i, p) →
  (unique_index c → unique_index (<[i := pull_sku k p]> c)) →
  delete_variant_by_sku k c =
    (mkResponse 200 (MessageBody "Variant deleted successfully"),
     <[i := pull_sku k p]> c).
Proof.
  intros Hfind Hkept. unfold delete_variant_by_sku, updateOne.
  rewrite Hfind, (write_admitted _ _ Hkept). simpl.
  apply list_find_Some in Hfind as (_ & Hp & _).
  by rewrite (decide_False _ _ (pull_sku_changes k p Hp)).
Qed.

(** The same, when the index refuses the write: 500, nothing pulled. *)
Lemma delete_variant_by_sku_refused k c i p :
  list_find (variants_sku k) c = Some (i, p) →
  unique_index c → ¬ unique_index (<[i := pull_sku k p]> c) →
  delete_variant_by_sku k c =
    (mkResponse 500 (ThrownBody (DuplicateKey "variants.sku_1")), c).
Proof.
  intros Hfind Hc Hc'. unfold delete_variant_by_sku, updateOne.
  by rewrite Hfind, (write_refused _ _ Hc Hc').
Qed.

Lemma delete_variant_by_sku_absent k c :
  k ∉ skus c →
  delete_variant_by_sku k c =
    (mkResponse 404 (ErrorBody "Variant not found"), c).
Proof.
  intros Hk. unfold delete_variant_by_sku, updateOne.
  by rewrite (find_no_sku k c Hk).
Qed.

Lemma pull_single k v1 v v2 :
  has_sku k v →
  Forall (λ w, ¬ has_sku k w) v1 → Forall (λ w, ¬ has_sku k w) v2 →
  filter (λ w, ¬ has_sku k w) (v1 ++ v :: v2) = v1 ++ v2.
Proof.
  intros Hv Hv1 Hv2. rewrite filter_app, filter_cons_False by auto.
  by rewrite !(filter_all (λ w, ¬ has_sku k w)).
Qed.

(** The index admits a pull that leaves the document a variant: every key
    left is a key the document had. *)
Lemma pull_admitted k c1 p c2 :
  filter (λ w, ¬ has_sku k w) (variants p) ≠ [] →
  unique_index (c1 ++ p :: c2) →
  unique_index (c1 ++ pull_sku k p :: c2).
Proof.
  intros Hleft Hc. apply (unique_index_replace c1 p _ c2 Hc).
  intros key Hkey. left. apply index_keys_variants.
  assert (index_keys (pull_sku k p)
          = sku <$> filter (λ w, ¬ has_sku k w) (variants p)) as Hkeys.
  { unfold index_keys, pull_sku. simpl.
    by destruct (filter _ (variants p)). }
  rewrite Hkeys in Hkey.
  apply list_elem_of_fmap in Hkey as (u & -> & Hu).
  apply list_elem_of_fmap. exists u. split; [done |].
  by apply list_elem_of_filter in Hu as [_ Hu].
Qed.

(** On a store with unique skus that holds sku [k]: the delete route takes
    exactly the one variant with that sku out of its product when the index
    admits the write, and answers 500 and changes nothing when the index
    refuses it. *)
Lemma delete_variant_by_sku_unique k c :
  sku_unique c → k ∈ skus c →
  ∃ c1 p c2 v1 v v2,
    c = c1 ++ p :: c2 ∧ variants p = v1 ++ v :: v2 ∧ has_sku k v ∧
    delete_variant_by_sku k c =
      if decide (unique_index c ∧
                 ¬ unique_index (c1 ++ with_variants p (v1 ++ v2) :: c2))
      then (mkResponse 500 (ThrownBody (DuplicateKey "variants.sku_1")), c)
      else (mkResponse 200 (MessageBody "Variant deleted successfully"),
            c1 ++ with_variants p (v1 ++ v2) :: c2).
Proof.
  intros Huniq Hk.
  destruct (first_variant_with_sku k c Hk)
    as (c1 & p & c2 & v1 & v & v2 & -> & Hvs & Hkv & Hc1 & Hv1 & Hfind & Hpos).
  exists c1, p, c2, v1, v, v2. split_and!; try done.
  assert (pull_sku k p = with_variants p (v1 ++ v2)) as Hpull.
  { unfold pull_sku. rewrite Hvs, pull_single; try done.
    unfold sku_unique in Huniq. rewrite skus_middle, Hvs, omap_app in Huniq.
    apply NoDup_app in Huniq as (_ & _ & Huniq).
    apply NoDup_app in Huniq as (Huniq & _ & _).
    apply NoDup_app in Huniq as (_ & _ & Huniq).
    simpl in Huniq. rewrite Hkv in Huniq.
    apply NoDup_cons in Huniq as [Hk2 _].
    apply Forall_forall. intros w Hw Hkw. apply Hk2.
    apply list_elem_of_omap. by exists w. }
  case_decide as Hd.
  - destruct Hd as [Hc Hc'].
    rewrite (delete_variant_by_sku_refused k _ _ p Hfind Hc); [done |].
    by rewrite insert_middle, Hpull.
  - rewrite (delete_variant_by_sku_found k _ _ p Hfind).
    + by rewrite insert_middle, Hpull.
    + rewrite insert_middle, Hpull. intros Hc.
      destruct (decide (unique_index (c1 ++ with_variants p (v1 ++ v2) :: c2)));
        [done |]. destruct Hd. by split.
Qed.

(** C5. The store [desk_shop] holds a pen without variants and the laptop
    with its one variant LP-SIL-15; its skus are unique and it satisfies the
    index.  Asked to delete LP-SIL-15, the route answers 500 with the
    duplicate-key error and removes nothing: without that variant the
    laptop would share the key [null] with the pen. *)
Theorem delete_last_variant_500 :
  sku_unique desk_shop ∧ "LP-SIL-15" ∈ skus desk_shop ∧ unique_index desk_shop ∧
  delete_variant_by_sku "LP-SIL-15" desk_shop =
    (mkResponse 500 (ThrownBody (DuplicateKey "variants.sku_1")), desk_shop).
Proof.
  split_and!; [unfold sku_unique; compute_done | compute_done
              | unfold unique_index; compute_done | reflexivity].
Qed.

(** On the document the delete route selects, when the index admits the
    write, every variant with sku [k] is pulled in the one update. *)
Lemma delete_variant_by_sku_pulls_all k c i p :
  list_find (variants_sku k) c = Some (i, p) →
  let remaining := filter (λ v, ¬ has_sku k v) (variants p) in
  (unique_index c → unique_index (<[i := with_variants p remaining]> c)) →
  delete_variant_by_sku k c =
    (mkResponse 200 (MessageBody "Variant deleted successfully"),
     <[i := with_variants p remaining]> c) ∧
  Forall (λ v, ¬ has_sku k v) remaining ∧
  (length remaining + length (filter (has_sku k) (variants p)))%nat =
    length (variants p).
Proof.
  intros Hfind remaining Hkept. split_and!.
  - by rewrite (delete_variant_by_sku_found _ _ _ _ Hfind).
  - apply Forall_forall. intros v Hv.
    by apply list_elem_of_filter in Hv as [Hv _].
  - apply (filter_length_complement (has_sku k)).
Qed.

(** C10. The store holds the pen without variants and a T-shirt whose two
    variants both carry TS-RED-M; it satisfies the index.  Asked to delete
    TS-RED-M, the route answers 500 with the duplicate-key error and both
    variants stay: without them the T-shirt would share the key [null] with
    the pen. *)
Theorem delete_every_variant_500 :
  unique_index [pen; tshirt_red_only] ∧
  length (filter (has_sku "TS-RED-M") (variants tshirt_red_only)) = 2%nat ∧
  delete_variant_by_sku "TS-RED-M" [pen; tshirt_red_only] =
    (mkResponse 500 (ThrownBody (DuplicateKey "variants.sku_1")),
     [pen; tshirt_red_only]).
Proof.
  split_and!; [unfold unique_index; compute_done | reflexivity | reflexivity].
Qed.

(** *** [POST] then [DELETE] *)

Lemma pull_pushed k v p :
  has_sku k v → Forall (λ w, ¬ has_sku k w) (variants p) →
  pull_sku k (push_variant v p) = p.
Proof.
  intros Hv Hp. unfold pull_sku, push_variant. simpl.
  rewrite with_variants_twice, filter_app.
  rewrite (filter_all (λ w, ¬ has_sku k w)) by done.
  rewrite filter_cons_False by auto. simpl.
  by rewrite app_nil_r, with_variants_same.
Qed.

(** C8. On a store that satisfies the index, a body with a sku [k] that no
    variant of the store carries is posted to an existing product and then
    deleted by that sku: after the post the variant list of the product is
    the old one with the cast body at its end, after the delete it is the
    old one again, and so is the whole store.  Uniqueness of the other skus
    is not needed. *)
Theorem post_then_delete_restores oid id b k c pid i p :
  unique_index c →
  body_sku b = Some k →
  k ∉ skus c →
  castObjectId id = Ok pid →
  list_find (has_id pid) c = Some (i, p) →
  let posted := post_product_variant oid id b c in
  let deleted := delete_variant_by_sku k posted.2 in
  status posted.1 = 201%nat ∧
  variants <$> (posted.2 !! i) = Some (variants p ++ [castVariant oid b]) ∧
  status deleted.1 = 200%nat ∧
  variants <$> (deleted.2 !! i) = Some (variants p) ∧
  deleted.2 = c.
Proof.
  intros Hindex Hb Hk Hid Hfind posted deleted.
  pose proof Hfind as (Hi & _ & _)%list_find_Some.
  pose proof (lookup_lt_Some _ _ _ Hi) as Hlt.
  assert (unique_index (<[i := push_variant (castVariant oid b) p]> c)) as Hindex'.
  { destruct (list_find_split _ _ _ _ Hfind) as (c1 & c2 & Hc & Hlen & _ & _).
    subst c i. rewrite insert_middle. by apply push_fresh_admitted with k. }
  assert (posted = (mkResponse 201 (MessageBody "Variant added successfully"),
                    <[i := push_variant (castVariant oid b) p]> c)) as Hposted
    by (by apply post_product_variant_found with pid).
  apply not_elem_of_skus, no_sku_products in Hk.
  assert (list_find (variants_sku k) posted.2
          = Some (i, push_variant (castVariant oid b) p)) as Hsel.
  { rewrite Hposted. simpl. apply list_find_Some. split_and!.
    - by apply list_lookup_insert_eq.
    - unfold variants_sku. simpl. apply Exists_app. right. by left.
    - intros j q Hq Hj. rewrite list_lookup_insert_ne in Hq by lia.
      by apply (Forall_lookup_1 _ _ _ _ Hk Hq). }
  assert (pull_sku k (push_variant (castVariant oid b) p) = p) as Hpull.
  { apply pull_pushed; [done |].
    apply not_Exists_Forall; [apply _ |].
    by apply (Forall_lookup_1 _ _ _ _ Hk Hi). }
  assert (deleted = (mkResponse 200 (MessageBody "Variant deleted successfully"), c))
    as Hdeleted.
  { unfold deleted. rewrite (delete_variant_by_sku_found _ _ _ _ Hsel).
    - rewrite Hposted. simpl.
      by rewrite list_insert_insert_eq, Hpull, list_insert_id.
    - intros _. rewrite Hposted. simpl.
      by rewrite list_insert_insert_eq, Hpull, list_insert_id. }
  rewrite Hposted, Hdeleted. simpl. split_and!; try done.
  - by rewrite list_lookup_insert_eq.
  - by rewrite Hi.
Qed.

Lemma post_then_delete_restores_witness :
  unique_index shop ∧
  body_sku body_without_color = Some "TS-NEW" ∧
  ("TS-NEW" ∉ skus shop) ∧
  castObjectId tshirt_id = Ok (_id tshirt) ∧
  list_find (has_id (_id tshirt)) shop = Some (0%nat, tshirt) ∧
  (delete_variant_by_sku "TS-NEW"
     (post_product_variant 9%N tshirt_id body_without_color shop).2).2 = shop.
Proof.
  assert (unique_index shop) as Hindex by (unfold unique_index; compute_done).
  assert ("TS-NEW" ∉ skus shop) as Hfresh by compute_done.
  split_and!; [exact Hindex | reflexivity | exact Hfresh | reflexivity | reflexivity |].
  exact (proj2 (proj2 (proj2 (proj2
    (post_then_delete_restores 9%N tshirt_id body_without_color "TS-NEW" shop
       (_id tshirt) 0%nat tshirt Hindex eq_refl Hfresh eq_refl eq_refl))))).
Defined.

(** *** [updated_at] *)

Lemma set_positional_stock_updated_at k n p :
  updated_at (set_positional_stock k n p) = updated_at p.
Proof. unfold set_positional_stock. by destruct (list_find _ _) as [[??]|]. Qed.

(** None of the three variant routes touches [updated_at], on any
    product. *)
Lemma patch_variant_stock_updated_at k n c :
  updated_at <$> (patch_variant_stock k n c).2 = updated_at <$> c.
Proof.
  destruct (patch_variant_stock_store k n c) as [-> | (i & p & Hi & ->)]; [done |].
  apply (insert_keeps _ _ _ p); [done |]. apply set_positional_stock_updated_at.
Qed.

Lemma delete_variant_by_sku_updated_at k c :
  updated_at <$> (delete_variant_by_sku k c).2 = updated_at <$> c.
Proof.
  destruct (delete_variant_by_sku_store k c) as [-> | (i & p & Hi & ->)]; [done |].
  by apply (insert_keeps _ _ _ p).
Qed.

Lemma post_product_variant_updated_at oid id b c :
  updated_at <$> (post_product_variant oid id b c).2 = updated_at <$> c.
Proof.
  destruct (post_product_variant_store oid id b c) as [-> | (i & p & Hi & ->)];
    [done |].
  by apply (insert_keeps _ _ _ p).
Qed.

(** C6. Setting the stock of TS-RED-M to 3 changes the variant list of the
    T-shirt, and the [updated_at] of the T-shirt is 1000 before and
    after. *)
Theorem patch_leaves_updated_at :
  let c' := (patch_variant_stock "TS-RED-M" 3 shop).2 in
  variants <$> (shop !! 0%nat) = Some [red_m; blue_l] ∧
  variants <$> (c' !! 0%nat) = Some [with_stock red_m 3; blue_l] ∧
  with_stock red_m 3 ≠ red_m ∧
  updated_at <$> (shop !! 0%nat) = Some 1000 ∧
  updated_at <$> (c' !! 0%nat) = Some 1000.
Proof. by split_and!. Qed.

(** *** [GET /products/:id] *)

Lemma get_product_by_id_malformed id c e :
  castObjectId id = Throw e →
  get_product_by_id id c = mkResponse 500 (ThrownBody e).
Proof. intros Hid. unfold get_product_by_id, findById. by rewrite Hid. Qed.

Lemma get_product_by_id_missing id c oid :
  castObjectId id = Ok oid →
  Forall (λ p, ¬ has_id oid p) c →
  get_product_by_id id c = mkResponse 404 (ErrorBody "Product not found").
Proof.
  intros Hid Hc. unfold get_product_by_id, findById. rewrite Hid. simpl.
  by rewrite (list_find_is_None (has_id oid)).
Qed.

Lemma get_product_by_id_found id c oid i p :
  castObjectId id = Ok oid →
  list_find (has_id oid) c = Some (i, p) →
  get_product_by_id id c = mkResponse 200 (ProductBody p).
Proof.
  intros Hid Hc. unfold get_product_by_id, findById. rewrite Hid. simpl.
  by rewrite Hc.
Qed.

(** C7. The identifier "badid" is no ObjectId; [GET /products/badid]
    answers 500 with the cast error, on every store. *)
Theorem get_product_by_id_badid c :
  castObjectId "badid" = Throw (CastError "_id" "badid") ∧
  get_product_by_id "badid" c =
    mkResponse 500 (ThrownBody (CastError "_id" "badid")).
Proof. split; [done |]. by apply get_product_by_id_malformed. Qed.

End CatalogSpec.

(** ** The smaller server: malformed identifiers and the sample fallback *)

Module MinimalSpec.
Import Minimal.

(** [GET /products/:id/variants] answers 400 to an identifier that is no
    ObjectId. *)
Lemma get_product_variants_malformed id c e :
  castObjectId id = Throw e →
  get_product_variants id c = mkResponse 400 (ErrorBody "Invalid product ID").
Proof. intros Hid. unfold get_product_variants, findById. by rewrite Hid. Qed.

Lemma get_product_variants_missing id c oid :
  castObjectId id = Ok oid →
  Forall (λ p, ¬ has_id oid p) c →
  get_product_variants id c = mkResponse 404 (ErrorBody "Product not found").
Proof.
  intros Hid Hc. unfold get_product_variants, findById. rewrite Hid. simpl.
  by rewrite (list_find_is_None (has_id oid)).
Qed.

Lemma get_product_variants_found id c oid i p :
  castObjectId id = Ok oid →
  list_find (has_id oid) c = Some (i, p) →
  get_product_variants id c = mkResponse 200 (VariantsBody (variants p)).
Proof.
  intros Hid Hc. unfold get_product_variants, findById. rewrite Hid. simpl.
  by rewrite Hc.
Qed.

(** On the empty store [GET /products] answers with [sampleProducts], which
    is not the empty list of products. *)
Lemma get_products_empty_store :
  get_products [] = mkResponse 200 (SamplesBody sampleProducts) ∧
  body (get_products []) ≠ ProductsBody [].
Proof. split; [reflexivity | discriminate]. Qed.

End MinimalSpec.

(** ** [GET /products] on both servers *)

(** C9. The catalog server answers [GET /products] with exactly the
    products of the store, in store order, hence with the empty list on the
    empty store.  The smaller server does so on a store that holds a
    product, and answers with [sampleProducts] on the empty store. *)
Theorem get_products_body (c : list Catalog.Product) (d : list Minimal.Product) :
  Catalog.get_products c = Catalog.mkResponse 200 (Catalog.ProductsBody c) ∧
  Catalog.get_products [] = Catalog.mkResponse 200 (Catalog.ProductsBody []) ∧
  Minimal.get_products d =
    Minimal.mkResponse 200
      match d with
      | [] => Minimal.SamplesBody Minimal.sampleProducts
      | _ :: _ => Minimal.ProductsBody d
      end.
Proof. split_and!; [done | done | by destruct d]. Qed.

(** ** The catalog server: the variant routes as a protocol *)

Module CatalogRoutes.
Import Catalog CatalogSpec.

Lemma same_but_variants_refl p : same_but_variants p p.
Proof. by repeat split. Qed.

Lemma Forall2_insert_first {A} (R : A → A → Prop) (l : list A) i x y :
  (∀ z, R z z) → l !! i = Some x → R x y → Forall2 R l (<[i := y]> l).
Proof.
  intros Hrefl Hi Hxy.
  rewrite <- (take_drop_middle l i x Hi) at 1.
  rewrite insert_take_drop by (by eapply lookup_lt_Some).
  apply Forall2_app; [by apply Forall_Forall2_diag, Forall_forall |].
  constructor; [done |]. by apply Forall_Forall2_diag, Forall_forall.
Qed.

Lemma same_but_variants_all (c : list Product) : Forall2 same_but_variants c c.
Proof.
  apply Forall_Forall2_diag, Forall_forall. intros. apply same_but_variants_refl.
Qed.

Lemma set_positional_stock_frame k n p :
  same_but_variants p (set_positional_stock k n p).
Proof.
  unfold set_positional_stock.
  destruct (list_find _ _) as [[??]|]; by repeat split.
Qed.

Lemma patch_variant_stock_products k n c :
  Forall2 same_but_variants c (patch_variant_stock k n c).2.
Proof.
  destruct (patch_variant_stock_store k n c) as [-> | (i & p & Hi & ->)];
    [apply same_but_variants_all |].
  apply (Forall2_insert_first _ _ _ p); [apply same_but_variants_refl | done |].
  apply set_positional_stock_frame.
Qed.

Lemma post_product_variant_products oid id b c :
  Forall2 same_but_variants c (post_product_variant oid id b c).2.
Proof.
  destruct (post_product_variant_store oid id b c) as [-> | (i & p & Hi & ->)];
    [apply same_but_variants_all |].
  apply (Forall2_insert_first _ _ _ p); [apply same_but_variants_refl | done |].
  apply same_but_variants_with.
Qed.

Lemma delete_variant_by_sku_products k c :
  Forall2 same_but_variants c (delete_variant_by_sku k c).2.
Proof.
  destruct (delete_variant_by_sku_store k c) as [-> | (i & p & Hi & ->)];
    [apply same_but_variants_all |].
  apply (Forall2_insert_first _ _ _ p); [apply same_but_variants_refl | done |].
  apply same_but_variants_with.
Qed.

(** The three variant routes never add, drop, reorder or relabel a
    product: after each of them the store holds the same products, equal in
    every field but [variants]. *)
Theorem variant_routes_keep_products k n oid id b c :
  Forall2 same_but_variants c (patch_variant_stock k n c).2 ∧
  Forall2 same_but_variants c (post_product_variant oid id b c).2 ∧
  Forall2 same_but_variants c (delete_variant_by_sku k c).2.
Proof.
  split_and!.
  - apply patch_variant_stock_products.
  - apply post_product_variant_products.
  - apply delete_variant_by_sku_products.
Qed.

Lemma filter_category_products cat (c c' : list Product) :
  Forall2 same_but_variants c c' →
  Forall2 same_but_variants (filter (has_category cat) c)
    (filter (has_category cat) c').
Proof.
  apply Forall2_filter. intros p p' Hp. unfold has_category.
  assert (category p' = category p) as -> by apply Hp. done.
Qed.

(** A category query after a variant route returns the products it
    returned before, in the same order, equal in every field but
    [variants]. *)
Theorem category_query_after_variant_route cat k n oid id b c :
  ∃ ps ps1 ps2 ps3,
    get_products_by_category cat c = mkResponse 200 (ProductsBody ps) ∧
    get_products_by_category cat (patch_variant_stock k n c).2 =
      mkResponse 200 (ProductsBody ps1) ∧
    get_products_by_category cat (post_product_variant oid id b c).2 =
      mkResponse 200 (ProductsBody ps2) ∧
    get_products_by_category cat (delete_variant_by_sku k c).2 =
      mkResponse 200 (ProductsBody ps3) ∧
    Forall2 same_but_variants ps ps1 ∧
    Forall2 same_but_variants ps ps2 ∧
    Forall2 same_but_variants ps ps3.
Proof.
  eexists _, _, _, _. split_and!; try reflexivity.
  - apply filter_category_products, patch_variant_stock_products.
  - apply filter_category_products, post_product_variant_products.
  - apply filter_category_products, delete_variant_by_sku_products.
Qed.

(** A stock request sent twice: the second answer is 404 "Variant not
    found" on every store, and the second request changes nothing. *)
Theorem patch_variant_stock_twice k n c :
  patch_variant_stock k n (patch_variant_stock k n c).2 =
    (mkResponse 404 (ErrorBody "Variant not found"), (patch_variant_stock k n c).2).
Proof.
  destruct (decide (k ∈ skus c)) as [Hk|Hk].
  - destruct (first_variant_with_sku k c Hk)
      as (c1 & p & c2 & v1 & v & v2 & -> & Hvs & Hkv & Hc1 & Hv1 & _ & _).
    rewrite (patch_variant_stock_at k n c1 p c2 v1 v v2) by done. simpl.
    rewrite (patch_variant_stock_at k n c1 _ c2 v1 (with_stock v n) v2) by done.
    simpl. by rewrite decide_True.
  - rewrite (patch_variant_stock_absent k n c Hk). simpl.
    by rewrite (patch_variant_stock_absent k n c Hk).
Qed.

(** Of two stock requests for one sku the later one decides the store. *)
Theorem patch_variant_stock_last_wins k n m c :
  (patch_variant_stock k m (patch_variant_stock k n c).2).2 =
  (patch_variant_stock k m c).2.
Proof.
  destruct (decide (k ∈ skus c)) as [Hk|Hk].
  - destruct (first_variant_with_sku k c Hk)
      as (c1 & p & c2 & v1 & v & v2 & -> & Hvs & Hkv & Hc1 & Hv1 & _ & _).
    rewrite (patch_variant_stock_at k n c1 p c2 v1 v v2) by done. simpl.
    rewrite (patch_variant_stock_at k m c1 _ c2 v1 (with_stock v n) v2) by done.
    by rewrite (patch_variant_stock_at k m c1 p c2 v1 v v2) by done.
  - rewrite (patch_variant_stock_absent k n c Hk). simpl.
    by rewrite (patch_variant_stock_absent k m c Hk).
Qed.

(** The stock route never changes a sku: the skus of the store, in order
    and with repetitions, are the same afterwards. *)
Theorem patch_variant_stock_skus k n c :
  skus (patch_variant_stock k n c).2 = skus c.
Proof.
  destruct (decide (k ∈ skus c)) as [Hk|Hk].
  - destruct (first_variant_with_sku k c Hk)
      as (c1 & p & c2 & v1 & v & v2 & -> & Hvs & Hkv & Hc1 & Hv1 & _ & _).
    rewrite (patch_variant_stock_at k n c1 p c2 v1 v v2) by done. simpl.
    rewrite !skus_middle. simpl. by rewrite Hvs, !omap_app.
  - by rewrite (patch_variant_stock_absent k n c Hk).
Qed.

Lemma not_elem_of_omap_sku k vs :
  k ∉ omap sku vs ↔ Forall (λ w, ¬ has_sku k w) vs.
Proof.
  rewrite Forall_forall, list_elem_of_omap. unfold has_sku. split.
  - intros Hno w Hw Hk. apply Hno. by exists w.
  - intros Hall (w & Hw & Hk). by apply (Hall w).
Qed.

Lemma omap_sku_sublist (vs ws : list Variant) :
  vs `sublist_of` ws → omap sku vs `sublist_of` omap sku ws.
Proof.
  induction 1 as [|v vs ws _ IH|v vs ws _ IH]; simpl.
  - constructor.
  - destruct (sku v); [by constructor | done].
  - destruct (sku v); [by constructor | done].
Qed.

(** On a store with unique skus, the variant with sku [k] is the only one:
    no variant before or after it, in its product or another, has [k]. *)
Lemma sku_unique_split k c1 p c2 v1 v v2 :
  sku_unique (c1 ++ p :: c2) → variants p = v1 ++ v :: v2 → has_sku k v →
  Forall (λ w, ¬ has_sku k w) (all_variants c1) ∧
  Forall (λ w, ¬ has_sku k w) v1 ∧
  Forall (λ w, ¬ has_sku k w) v2 ∧
  Forall (λ w, ¬ has_sku k w) (all_variants c2).
Proof.
  unfold sku_unique. intros Huniq Hvs Hkv.
  rewrite skus_middle, Hvs, omap_app in Huniq. simpl in Huniq.
  rewrite Hkv in Huniq.
  apply NoDup_app in Huniq as (_ & Hc1 & Huniq).
  apply NoDup_app in Huniq as (Hp & Hc2 & _).
  apply NoDup_app in Hp as (_ & Hv1 & Hv2).
  apply NoDup_cons in Hv2 as [Hv2 _].
  split_and!.
  - apply not_elem_of_omap_sku. intros Hin. apply (Hc1 k Hin).
    apply elem_of_app. left. apply elem_of_app. right. by left.
  - apply not_elem_of_omap_sku. intros Hin. apply (Hv1 k Hin). by left.
  - by apply not_elem_of_omap_sku.
  - apply not_elem_of_omap_sku. apply Hc2.
    apply elem_of_app. right. by left.
Qed.

(** The delete route by sku never adds a sku: what it leaves is a sublist
    of the skus before. *)
Lemma delete_variant_by_sku_sublist k c :
  skus (delete_variant_by_sku k c).2 `sublist_of` skus c.
Proof.
  destruct (delete_variant_by_sku_store k c) as [-> | (i & p & Hi & ->)]; [done |].
  rewrite <- (take_drop_middle c i p Hi) at 2.
  rewrite insert_take_drop by (by eapply lookup_lt_Some).
  rewrite !skus_middle. simpl.
  apply sublist_app; [done |]. apply sublist_app; [| done].
  apply omap_sku_sublist, sublist_filter.
Qed.

(** On a store with unique skus the delete route by sku keeps the skus
    unique; when it answers 200 it leaves no variant with sku [k], and the
    same request sent again is answered 404 and changes nothing. *)
Theorem delete_variant_by_sku_then_absent k c :
  sku_unique c →
  let deleted := delete_variant_by_sku k c in
  sku_unique deleted.2 ∧
  (status deleted.1 = 200%nat →
   (k ∉ skus deleted.2) ∧
   delete_variant_by_sku k deleted.2 =
     (mkResponse 404 (ErrorBody "Variant not found"), deleted.2)).
Proof.
  intros Huniq deleted. split.
  { eapply sublist_NoDup; [exact Huniq | apply delete_variant_by_sku_sublist]. }
  intros Hstatus.
  assert (k ∉ skus deleted.2) as Hgone;
    [| split; [done | by apply delete_variant_by_sku_absent]].
  unfold deleted in *. destruct (decide (k ∈ skus c)) as [Hk|Hk].
  - destruct (delete_variant_by_sku_unique k c Huniq Hk)
      as (c1 & p & c2 & v1 & v & v2 & -> & Hvs & Hkv & Hdel).
    destruct (sku_unique_split k c1 p c2 v1 v v2 Huniq Hvs Hkv)
      as (Hc1 & Hv1 & Hv2 & Hc2).
    rewrite Hdel in Hstatus |- *. case_decide; [done |]. simpl.
    apply not_elem_of_skus. rewrite all_variants_middle. simpl.
    rewrite !Forall_app. by split_and!.
  - by rewrite (delete_variant_by_sku_absent k c Hk) in Hstatus.
Qed.

Lemma delete_variant_by_sku_then_absent_witness :
  sku_unique shop ∧
  status (delete_variant_by_sku "LP-SIL-15" shop).1 = 200%nat ∧
  delete_variant_by_sku "LP-SIL-15" (delete_variant_by_sku "LP-SIL-15" shop).2 =
    (mkResponse 404 (ErrorBody "Variant not found"),
     [tshirt; with_variants laptop []]).
Proof.
  assert (sku_unique shop) as Huniq by (unfold sku_unique; compute_done).
  split_and!; [exact Huniq | reflexivity |].
  exact (proj2 (proj2 (delete_variant_by_sku_then_absent "LP-SIL-15" shop Huniq)
                  eq_refl)).
Defined.

(** A key that the replaced document shares with another document breaks
    the index. *)
Lemma shared_key_not_unique c1 (p : Product) c2 key :
  key ∈ index_keys p →
  key ∈ index_entries c1 ∨ key ∈ index_entries c2 →
  ¬ unique_index (c1 ++ p :: c2).
Proof.
  unfold unique_index. rewrite index_entries_middle.
  intros Hkey Hshared (_ & Hd1 & Hn)%NoDup_app.
  apply NoDup_app in Hn as (_ & Hd2 & _).
  destruct Hshared as [H1 | H2].
  - apply (Hd1 key H1), elem_of_app. left. by rewrite elem_of_remove_dups.
  - apply (Hd2 key); [by rewrite elem_of_remove_dups | done].
Qed.

(** The post of a variant to an existing product: refused with 400 when it
    breaks an index the store satisfied, appended with 201 otherwise. *)
Lemma post_product_variant_cases oid id b pid c1 p c2 :
  castObjectId id = Ok pid →
  list_find (has_id pid) (c1 ++ p :: c2) = Some (length c1, p) →
  post_product_variant oid id b (c1 ++ p :: c2) =
    if decide (unique_index (c1 ++ p :: c2) ∧
               ¬ unique_index (c1 ++ push_variant (castVariant oid b) p :: c2))
    then (mkResponse 400 (ThrownBody (DuplicateKey "variants.sku_1")),
          c1 ++ p :: c2)
    else (mkResponse 201 (MessageBody "Variant added successfully"),
          c1 ++ push_variant (castVariant oid b) p :: c2).
Proof.
  intros Hid Hfind. case_decide as Hd.
  - destruct Hd as [Hc Hc'].
    apply (post_product_variant_refused oid id b _ pid (length c1) p); try done.
    by rewrite insert_middle.
  - rewrite (post_product_variant_found oid id b _ pid (length c1) p Hid Hfind).
    + by rewrite insert_middle.
    + rewrite insert_middle. intros Hc.
      destruct (decide (unique_index
        (c1 ++ push_variant (castVariant oid b) p :: c2))); [done |].
      destruct Hd. by split.
Qed.

(** A variant is posted to an existing product of a store that satisfies
    the index and has unique skus: the skus are unique afterwards exactly
    when the product itself did not hold the sku.  A sku that another
    product holds is refused by the index; a sku that the product itself
    holds is appended a second time. *)
Theorem post_product_variant_unique oid id b k c pid i p :
  body_sku b = Some k →
  castObjectId id = Ok pid →
  list_find (has_id pid) c = Some (i, p) →
  sku_unique c →
  unique_index c →
  sku_unique (post_product_variant oid id b c).2 ↔ k ∉ omap sku (variants p).
Proof.
  intros Hb Hid Hfind Huniq Hindex.
  destruct (list_find_split _ _ _ _ Hfind) as (c1 & c2 & -> & <- & _ & _).
  rewrite (post_product_variant_cases oid id b pid c1 p c2 Hid Hfind).
  assert (skus (c1 ++ push_variant (castVariant oid b) p :: c2)
          ≡ₚ k :: skus (c1 ++ p :: c2)) as Hperm.
  { rewrite !skus_middle. simpl. rewrite omap_app. simpl. rewrite Hb.
    rewrite <- !app_assoc. simpl.
    rewrite (Permutation_middle (skus c1)).
    apply Permutation_app_head. by rewrite <- Permutation_middle. }
  assert (Some k ∈ index_keys (push_variant (castVariant oid b) p)) as Hkey.
  { rewrite index_keys_push, fmap_app, elem_of_app. right. simpl.
    rewrite Hb. by left. }
  destruct (decide (k ∈ omap sku (variants p))) as [Hin | Hout].
  - rewrite decide_False.
    + simpl. unfold sku_unique. rewrite Hperm, NoDup_cons, skus_middle.
      split; [| done]. intros [Hk _]. exfalso. apply Hk.
      apply elem_of_app. right. apply elem_of_app. by left.
    + intros [_ Hbroken]. apply Hbroken.
      apply (unique_index_replace c1 p _ c2 Hindex). intros key.
      rewrite index_keys_push, fmap_app, elem_of_app. simpl. rewrite Hb.
      intros [Hold | ->%list_elem_of_singleton]; left.
      * by apply index_keys_variants.
      * by apply index_keys_some.
  - split; [done |]. intros _. case_decide as Hd; [done |]. simpl.
    assert (unique_index (c1 ++ push_variant (castVariant oid b) p :: c2)) as Hindex'.
    { destruct (decide (unique_index
        (c1 ++ push_variant (castVariant oid b) p :: c2))); [done |].
      destruct Hd. by split. }
    unfold sku_unique. rewrite Hperm, NoDup_cons. split; [| done].
    rewrite skus_middle, !elem_of_app. intros [H1 | [Hp | H2]]; [| done |].
    + apply (shared_key_not_unique c1 _ c2 (Some k) Hkey); [| done].
      left. by apply index_entries_some.
    + apply (shared_key_not_unique c1 _ c2 (Some k) Hkey); [| done].
      right. by apply index_entries_some.
Qed.

Lemma post_product_variant_unique_witness :
  body_sku body_red_m = Some "TS-RED-M" ∧
  castObjectId laptop_id = Ok (_id laptop) ∧
  list_find (has_id (_id laptop)) shop = Some (1%nat, laptop) ∧
  sku_unique shop ∧ unique_index shop ∧
  post_product_variant 4%N laptop_id body_red_m shop =
    (mkResponse 400 (ThrownBody (DuplicateKey "variants.sku_1")), shop) ∧
  (sku_unique (post_product_variant 4%N laptop_id body_red_m shop).2 ↔
   "TS-RED-M" ∉ omap sku (variants laptop)).
Proof.
  assert (sku_unique shop) as Huniq by (unfold sku_unique; compute_done).
  assert (unique_index shop) as Hindex by (unfold unique_index; compute_done).
  split_and!; [reflexivity | reflexivity | reflexivity | exact Huniq
              | exact Hindex | reflexivity |].
  exact (post_product_variant_unique 4%N laptop_id body_red_m "TS-RED-M"
           shop (_id laptop) 1%nat laptop eq_refl eq_refl eq_refl Huniq Hindex).
Defined.

End CatalogRoutes.

(** ** Validation *)

#[local] Set Warnings "-clear-no-such-hyp".

Section validation.

Lemma required_string_inr path x s :
  required_string path x = inr s ↔ x = Some s ∧ s ≠ "".
Proof.
  unfold required_string. destruct x as [t|]; [| naive_solver].
  case_decide; naive_solver.
Qed.

Lemma required_min0_inr path x n :
  required_min0 path x = inr n ↔ x = Some n ∧ 0 ≤ n.
Proof.
  unfold required_min0. destruct x as [m|]; [| naive_solver].
  case_decide; naive_solver.
Qed.

Lemma required_enum_inr values path x s :
  required_enum values path x = inr s ↔ x = Some s ∧ s ∈ values.
Proof.
  unfold required_enum. destruct x as [t|]; [| naive_solver].
  case_decide; naive_solver.
Qed.

Lemma also_inr {A B} (a : Checked A) (b : Checked B) x y :
  also a b = inr (x, y) ↔ a = inr x ∧ b = inr y.
Proof. destruct a, b; simpl; naive_solver. Qed.

Lemma also_inl {A B} (a : Checked A) (b : Checked B) paths :
  also a b = inl paths → (∃ e, a = inl e) ∨ (∃ e, b = inl e).
Proof. destruct a, b; simpl; naive_solver. Qed.

Lemma failures_nil_string path x :
  failures (required_string path x) = [] ↔ ∃ s, x = Some s ∧ s ≠ "".
Proof.
  unfold required_string. destruct x as [t|]; [| naive_solver].
  case_decide; naive_solver.
Qed.

Lemma failures_nil_min0 path x :
  failures (required_min0 path x) = [] ↔ ∃ n, x = Some n ∧ 0 ≤ n.
Proof.
  unfold required_min0. destruct x as [m|]; [| naive_solver].
  case_decide; naive_solver.
Qed.

Lemma concat_imap_nil {A B} (h : nat → A → list B) (Q : A → Prop) (l : list A) :
  (∀ i x, h i x = [] ↔ Q x) →
  concat (imap h l) = [] ↔ Forall Q l.
Proof.
  revert h. induction l as [|x l IH]; intros h Hh.
  - split; [constructor | done].
  - rewrite imap_cons. simpl. rewrite app_nil, Forall_cons, Hh.
    rewrite (IH (h ∘ S)); [done |]. intros i y. apply Hh.
Qed.

End validation.

(** ** The catalog server: the product routes *)

Module CatalogProducts.
Import Catalog CatalogSpec.

(** *** [POST /products] *)

Lemma variant_failures_nil i v : variant_failures i v = [] ↔ valid_variant v.
Proof.
  unfold variant_failures, valid_variant, present_string.
  by rewrite !app_nil, !failures_nil_string, failures_nil_min0.
Qed.

Lemma checked_variants_inr vs ws :
  checked_variants vs = inr ws ↔ ws = vs ∧ Forall valid_variant vs.
Proof.
  unfold checked_variants.
  rewrite <- (concat_imap_nil variant_failures valid_variant vs variant_failures_nil).
  destruct (concat _); naive_solver.
Qed.

Lemma valid_cast_variant oid b :
  valid_variant (castVariant oid b) ↔ acceptable_variant b.
Proof. done. Qed.

Lemma valid_cast_variants fresh bs :
  Forall valid_variant (castVariants fresh bs) ↔ Forall acceptable_variant bs.
Proof.
  unfold castVariants. revert fresh.
  induction bs as [|b bs IH]; intros fresh.
  - split; constructor.
  - rewrite imap_cons, !Forall_cons, valid_cast_variant.
    by rewrite (IH (fresh ∘ S)).
Qed.

(** [save] accepts a body exactly when the body meets the schema, and then
    the document is the body with its defaults. *)
Lemma new_product_inr oid fresh t_created t_updated f p :
  new_product oid fresh t_created t_updated f = inr p ↔
  acceptable f ∧
  p = {| _id := oid;
         name := default "" (req_name f);
         description := default "" (req_description f);
         base_price := default 0 (req_base_price f);
         category := default "" (req_category f);
         brand := default "" (req_brand f);
         variants := castVariants fresh (default [] (req_variants f));
         tags := default [] (req_tags f);
         created_at := default t_created (req_created_at f);
         updated_at := default t_updated (req_updated_at f) |}.
Proof.
  unfold new_product, acceptable, present_string.
  destruct (also _ _) as [paths|(n & d & bp & cat & br & vs)] eqn:Hchecks.
  - split; [done |]. intros [(Hn & Hd & Hbp & Hcat & Hbr & Hvs) _]. exfalso.
    destruct Hn as (n & Hn), Hd as (d & Hd), Hbp as (bp & Hbp),
      Hcat as (cat & Hcat), Hbr as (br & Hbr).
    apply (required_string_inr "name") in Hn.
    apply (required_string_inr "description") in Hd.
    apply (required_min0_inr "base_price") in Hbp.
    apply (required_enum_inr categories "category") in Hcat.
    apply (required_string_inr "brand") in Hbr.
    apply (valid_cast_variants fresh) in Hvs.
    assert (checked_variants (castVariants fresh (default [] (req_variants f)))
            = inr (castVariants fresh (default [] (req_variants f)))) as Hcv
      by (by apply checked_variants_inr).
    by rewrite Hn, Hd, Hbp, Hcat, Hbr, Hcv in Hchecks.
  - apply also_inr in Hchecks as [Hn Hchecks].
    apply also_inr in Hchecks as [Hd Hchecks].
    apply also_inr in Hchecks as [Hbp Hchecks].
    apply also_inr in Hchecks as [Hcat Hchecks].
    apply also_inr in Hchecks as [Hbr Hvs].
    apply required_string_inr in Hn as [Hn Hn'], Hd as [Hd Hd'], Hbr as [Hbr Hbr'].
    apply required_min0_inr in Hbp as [Hbp Hbp'].
    apply required_enum_inr in Hcat as [Hcat Hcat'].
    apply checked_variants_inr in Hvs as [-> Hvs].
    apply valid_cast_variants in Hvs.
    rewrite Hn, Hd, Hbp, Hcat, Hbr. simpl. split.
    + intros [= <-]. split; [| done]. split_and!; eauto.
    + intros [_ ->]. done.
Qed.

Lemma new_product_valid oid fresh t_created t_updated f p :
  new_product oid fresh t_created t_updated f = inr p →
  _id p = oid ∧ valid_product p.
Proof.
  intros [(Hn & Hd & Hbp & Hcat & Hbr & Hvs) ->]%new_product_inr.
  destruct Hn as (n & -> & Hn), Hd as (d & -> & Hd), Hbp as (bp & -> & Hbp),
    Hcat as (cat & -> & Hcat), Hbr as (br & -> & Hbr).
  split; [done |]. unfold valid_product. simpl. split_and!; try done.
  by apply valid_cast_variants.
Qed.

Lemma unique_index_snoc c p :
  unique_index (c ++ [p]) ↔
  unique_index c ∧ ∀ key, key ∈ index_keys p → key ∉ index_entries c.
Proof.
  unfold unique_index. rewrite index_entries_app. unfold index_entries at 2.
  simpl. rewrite app_nil_r, NoDup_app. split.
  - intros (Hc & Hd & _). split; [done |]. intros key Hkey Hin.
    apply (Hd key Hin). by rewrite elem_of_remove_dups.
  - intros [Hc Hd]. split_and!; [done | | apply NoDup_remove_dups].
    intros key Hin Hkey. rewrite elem_of_remove_dups in Hkey. by apply (Hd key).
Qed.

(** [save] of a validated document: refused with 400 when the store
    satisfies the index and the document has a key of a stored document,
    appended with 201 otherwise. *)
Lemma post_product_saved oid fresh t_created t_updated f c p :
  new_product oid fresh t_created t_updated f = inr p →
  post_product oid fresh t_created t_updated f c =
    if decide (unique_index c ∧ Exists (λ key, key ∈ index_entries c) (index_keys p))
    then (mkSaveResponse 400
            (RejectedBody (ThrownDriver (DuplicateKey "variants.sku_1"))), c)
    else (mkSaveResponse 201 (CreatedBody p), c ++ [p]).
Proof.
  intros Hnew. unfold post_product. rewrite Hnew. case_decide as Hd.
  - destruct Hd as (Hc & (key & Hkey & Hin)%Exists_exists).
    rewrite write_refused; [done | done |].
    rewrite unique_index_snoc. intros [_ Hno]. by apply (Hno key).
  - rewrite write_admitted; [done |]. intros Hc.
    apply unique_index_snoc. split; [done |]. intros key Hkey Hin.
    apply Hd. split; [done |]. apply Exists_exists. by exists key.
Qed.


(** A product that [POST /products] answered with 201, saved under an
    identifier new to the store, is what [GET /products/:id] returns for
    that identifier. *)
Theorem post_product_then_get oid fresh t_created t_updated f c id p :
  (post_product oid fresh t_created t_updated f c).1 =
    mkSaveResponse 201 (CreatedBody p) →
  castObjectId id = Ok oid →
  Forall (λ q, ¬ has_id oid q) c →
  get_product_by_id id (post_product oid fresh t_created t_updated f c).2 =
    mkResponse 200 (ProductBody p).
Proof.
  intros Hposted Hid Hfresh.
  destruct (new_product oid fresh t_created t_updated f) as [paths|q] eqn:Hnew.
  { unfold post_product in Hposted. by rewrite Hnew in Hposted. }
  rewrite (post_product_saved _ _ _ _ _ _ q Hnew) in Hposted |- *.
  case_decide; [done |]. simpl in *. injection Hposted as ->.
  apply new_product_valid in Hnew as [Hoid _].
  apply (get_product_by_id_found id _ oid (length c)); [done |].
  rewrite <- (app_nil_r (c ++ [p])), <- app_assoc. simpl.
  by apply list_find_middle.
Qed.

Lemma post_product_then_get_witness :
  (∃ p, (post_product 0x64b000000000000000000003%N (λ i, N.of_nat i + 10)%N
           5000 5001 mug_fields shop).1 = mkSaveResponse 201 (CreatedBody p)) ∧
  castObjectId mug_id = Ok 0x64b000000000000000000003%N ∧
  Forall (λ q, ¬ has_id 0x64b000000000000000000003%N q) shop ∧
  status (get_product_by_id mug_id
            (post_product 0x64b000000000000000000003%N (λ i, N.of_nat i + 10)%N
               5000 5001 mug_fields shop).2) = 200%nat.
Proof.
  assert (Forall (λ q, ¬ has_id 0x64b000000000000000000003%N q) shop) as Hfresh
    by (repeat constructor; by compute).
  split_and!; [by eexists | reflexivity | exact Hfresh |].
  pose proof (post_product_then_get 0x64b000000000000000000003%N
                (λ i, N.of_nat i + 10)%N 5000 5001 mug_fields shop mug_id _
                eq_refl eq_refl Hfresh) as Hget.
  by rewrite Hget.
Defined.

(** *** [PUT /products/:id] *)

Lemma put_product_found fresh id f c oid i p :
  castObjectId id = Ok oid →
  list_find (has_id oid) c = Some (i, p) →
  (unique_index c → unique_index (<[i := set_fields fresh f p]> c)) →
  put_product fresh id f c =
    (mkResponse 200 (ProductBody (set_fields fresh f p)),
     <[i := set_fields fresh f p]> c).
Proof.
  intros Hid Hfind Hkept. unfold put_product, findByIdAndUpdate.
  rewrite Hid. simpl. by rewrite Hfind, (write_admitted _ _ Hkept).
Qed.

Lemma put_product_refused fresh id f c oid i p :
  castObjectId id = Ok oid →
  list_find (has_id oid) c = Some (i, p) →
  unique_index c → ¬ unique_index (<[i := set_fields fresh f p]> c) →
  put_product fresh id f c =
    (mkResponse 400 (ThrownBody (DuplicateKey "variants.sku_1")), c).
Proof.
  intros Hid Hfind Hc Hc'. unfold put_product, findByIdAndUpdate.
  rewrite Hid. simpl. by rewrite Hfind, (write_refused _ _ Hc Hc').
Qed.

Lemma put_product_missing fresh id f c oid :
  castObjectId id = Ok oid →
  list_find (has_id oid) c = None →
  put_product fresh id f c = (mkResponse 404 (ErrorBody "Product not found"), c).
Proof.
  intros Hid Hfind. unfold put_product, findByIdAndUpdate.
  rewrite Hid. simpl. by rewrite Hfind.
Qed.

Lemma put_product_malformed fresh id f c e :
  castObjectId id = Throw e →
  put_product fresh id f c = (mkResponse 400 (ThrownBody e), c).
Proof. intros Hid. unfold put_product, findByIdAndUpdate. by rewrite Hid. Qed.

(** The PUT on an existing product: the updated document replaces it, or
    the index refuses the write. *)
Lemma put_product_cases fresh id f c oid i p :
  castObjectId id = Ok oid →
  list_find (has_id oid) c = Some (i, p) →
  put_product fresh id f c =
    (mkResponse 200 (ProductBody (set_fields fresh f p)),
     <[i := set_fields fresh f p]> c) ∨
  put_product fresh id f c =
    (mkResponse 400 (ThrownBody (DuplicateKey "variants.sku_1")), c).
Proof.
  intros Hid Hfind.
  destruct (decide (unique_index c ∧ ¬ unique_index (<[i := set_fields fresh f p]> c)))
    as [[Hc Hc'] | Hd].
  - right. by apply put_product_refused with oid i p.
  - left. apply put_product_found with oid; [done | done |]. intros Hc.
    destruct (decide (unique_index (<[i := set_fields fresh f p]> c))); [done |].
    destruct Hd. by split.
Qed.

Lemma unique_index_insert_same_keys (c : list Product) i p p' :
  c !! i = Some p → index_keys p' = index_keys p →
  unique_index c → unique_index (<[i := p']> c).
Proof.
  intros Hi Hkeys Hc.
  rewrite insert_take_drop by (by eapply lookup_lt_Some).
  rewrite <- (take_drop_middle c i p Hi) in Hc.
  apply (unique_index_replace _ p _ _ Hc). intros key Hkey. left.
  by rewrite <- Hkeys.
Qed.

(** [PUT /products/:id] runs no validator: on an existing product a body
    that carries a [base_price] and no [variants] is answered 200 and that
    price is stored, whatever its sign. *)
Theorem put_product_stores_price fresh id f c oid i p n :
  castObjectId id = Ok oid →
  list_find (has_id oid) c = Some (i, p) →
  req_base_price f = Some n →
  req_variants f = None →
  ∃ p', put_product fresh id f c = (mkResponse 200 (ProductBody p'), <[i := p']> c) ∧
        base_price p' = n ∧ _id p' = _id p.
Proof.
  intros Hid Hfind Hn Hvs. exists (set_fields fresh f p).
  rewrite (put_product_found fresh id f c oid i p Hid Hfind).
  - split_and!; [done | | done]. simpl. by rewrite Hn.
  - apply list_find_Some in Hfind as (Hi & _ & _).
    apply (unique_index_insert_same_keys c i p); [done |].
    unfold index_keys. simpl. by rewrite Hvs.
Qed.

Lemma put_product_stores_price_witness :
  ∃ p', put_product (λ i, N.of_nat i) tshirt_id (price_fields (-3)) shop =
          (mkResponse 200 (ProductBody p'), <[0%nat := p']> shop) ∧
        base_price p' = -3 ∧ _id p' = _id tshirt.
Proof.
  exact (put_product_stores_price (λ i, N.of_nat i) tshirt_id (price_fields (-3))
           shop (_id tshirt) 0%nat tshirt (-3) eq_refl eq_refl eq_refl eq_refl).
Defined.

(** What [PUT /products/:id] answers with 200 is what [GET /products/:id]
    returns afterwards. *)
Theorem put_product_then_get fresh id f c :
  status (put_product fresh id f c).1 = 200%nat →
  get_product_by_id id (put_product fresh id f c).2 = (put_product fresh id f c).1.
Proof.
  destruct (castObjectId id) as [oid|e] eqn:Hid.
  - destruct (list_find (has_id oid) c) as [[i p]|] eqn:Hfind.
    + destruct (put_product_cases fresh id f c oid i p Hid Hfind) as [-> | ->];
        [| done].
      intros _. simpl.
      destruct (list_find_split _ _ _ _ Hfind) as (c1 & c2 & -> & <- & Hc1 & Hp).
      rewrite insert_middle.
      apply (get_product_by_id_found id _ oid (length c1)); [done |].
      by apply list_find_middle.
    + by rewrite (put_product_missing fresh id f c oid Hid Hfind).
  - by rewrite (put_product_malformed fresh id f c e Hid).
Qed.

Lemma put_product_then_get_witness :
  status (put_product (λ i, N.of_nat i) tshirt_id (price_fields 30) shop).1 = 200%nat ∧
  get_product_by_id tshirt_id
    (put_product (λ i, N.of_nat i) tshirt_id (price_fields 30) shop).2 =
  (put_product (λ i, N.of_nat i) tshirt_id (price_fields 30) shop).1.
Proof.
  split; [reflexivity |].
  exact (put_product_then_get (λ i, N.of_nat i) tshirt_id (price_fields 30) shop
           eq_refl).
Defined.

Lemma put_product_store fresh id f c :
  (put_product fresh id f c).2 = c ∨
  ∃ i p, c !! i = Some p ∧
         (put_product fresh id f c).2 = <[i := set_fields fresh f p]> c.
Proof.
  destruct (castObjectId id) as [oid|e] eqn:Hid.
  - destruct (list_find (has_id oid) c) as [[i p]|] eqn:Hfind.
    + destruct (put_product_cases fresh id f c oid i p Hid Hfind) as [-> | ->];
        [| by left].
      right. exists i, p.
      by apply list_find_Some in Hfind as (Hi & _ & _).
    + left. by rewrite (put_product_missing fresh id f c oid Hid Hfind).
  - left. by rewrite (put_product_malformed fresh id f c e Hid).
Qed.

(** [PUT /products/:id] never changes an identifier, and it leaves every
    [updated_at] and [created_at] as it was unless the body carries that
    field. *)
Theorem put_product_keeps fresh id f c :
  let c' := (put_product fresh id f c).2 in
  _id <$> c' = _id <$> c ∧
  (req_updated_at f = None → updated_at <$> c' = updated_at <$> c) ∧
  (req_created_at f = None → created_at <$> c' = created_at <$> c).
Proof.
  destruct (put_product_store fresh id f c) as [-> | (i & p & Hi & ->)];
    [done |].
  split_and!.
  - by apply (insert_keeps _ _ _ p).
  - intros Hnone. apply (insert_keeps _ _ _ p); [done |]. simpl. by rewrite Hnone.
  - intros Hnone. apply (insert_keeps _ _ _ p); [done |]. simpl. by rewrite Hnone.
Qed.

Lemma put_product_keeps_witness :
  req_updated_at (price_fields 30) = None ∧
  updated_at <$> (put_product (λ i, N.of_nat i) tshirt_id (price_fields 30) shop).2 =
    updated_at <$> shop.
Proof.
  split; [reflexivity |].
  exact (proj1 (proj2
    (put_product_keeps (λ i, N.of_nat i) tshirt_id (price_fields 30) shop)) eq_refl).
Defined.

(** A body without fields changes nothing: the store after the PUT is the
    store before it. *)
Theorem put_product_no_fields fresh id c :
  (put_product fresh id no_fields c).2 = c.
Proof.
  destruct (put_product_store fresh id no_fields c) as [-> | (i & p & Hi & ->)];
    [done |].
  apply list_insert_id. rewrite Hi. by destruct p.
Qed.

(** *** [DELETE /products/:id] *)

Lemma delete_product_found id c oid i p :
  castObjectId id = Ok oid →
  list_find (has_id oid) c = Some (i, p) →
  delete_product id c =
    (mkResponse 200 (MessageBody "Product deleted successfully"), delete i c).
Proof.
  intros Hid Hfind. unfold delete_product, findByIdAndDelete.
  rewrite Hid. simpl. by rewrite Hfind.
Qed.

Lemma delete_product_missing id c oid :
  castObjectId id = Ok oid →
  list_find (has_id oid) c = None →
  delete_product id c = (mkResponse 404 (ErrorBody "Product not found"), c).
Proof.
  intros Hid Hfind. unfold delete_product, findByIdAndDelete.
  rewrite Hid. simpl. by rewrite Hfind.
Qed.

Lemma delete_product_malformed id c e :
  castObjectId id = Throw e →
  delete_product id c = (mkResponse 500 (ThrownBody e), c).
Proof. intros Hid. unfold delete_product, findByIdAndDelete. by rewrite Hid. Qed.

(** An identifier that is no ObjectId: PUT and the POST of a variant answer
    400, DELETE and GET answer 500, and none of them touches the store. *)
Theorem malformed_id_answers fresh oid id f b c e :
  castObjectId id = Throw e →
  put_product fresh id f c = (mkResponse 400 (ThrownBody e), c) ∧
  post_product_variant oid id b c = (mkResponse 400 (ThrownBody e), c) ∧
  delete_product id c = (mkResponse 500 (ThrownBody e), c) ∧
  get_product_by_id id c = mkResponse 500 (ThrownBody e).
Proof.
  intros Hid. split_and!.
  - by apply put_product_malformed.
  - by apply post_product_variant_malformed.
  - by apply delete_product_malformed.
  - by apply get_product_by_id_malformed.
Qed.

Lemma malformed_id_answers_witness :
  castObjectId "not-an-id" = Throw (CastError "_id" "not-an-id") ∧
  delete_product "not-an-id" shop =
    (mkResponse 500 (ThrownBody (CastError "_id" "not-an-id")), shop).
Proof.
  split; [reflexivity |].
  exact (proj1 (proj2 (proj2
    (malformed_id_answers (λ i, N.of_nat i) 0%N "not-an-id" no_fields
       body_without_color shop _ eq_refl)))).
Defined.

(** A well-formed identifier that no product has: PUT, DELETE, the POST of
    a variant and GET all answer 404 "Product not found", and the store is
    as it was. *)
Theorem unknown_id_answers fresh oid' id f b c oid :
  castObjectId id = Ok oid →
  Forall (λ p, ¬ has_id oid p) c →
  put_product fresh id f c = (mkResponse 404 (ErrorBody "Product not found"), c) ∧
  post_product_variant oid' id b c =
    (mkResponse 404 (ErrorBody "Product not found"), c) ∧
  delete_product id c = (mkResponse 404 (ErrorBody "Product not found"), c) ∧
  get_product_by_id id c = mkResponse 404 (ErrorBody "Product not found").
Proof.
  intros Hid Hc.
  pose proof (list_find_is_None (has_id oid) c Hc) as Hfind.
  split_and!.
  - by apply put_product_missing with oid.
  - by apply post_product_variant_missing with oid.
  - by apply delete_product_missing with oid.
  - by apply get_product_by_id_missing with oid.
Qed.

Lemma unknown_id_answers_witness :
  castObjectId mug_id = Ok 0x64b000000000000000000003%N ∧
  Forall (λ q, ¬ has_id 0x64b000000000000000000003%N q) shop ∧
  delete_product mug_id shop =
    (mkResponse 404 (ErrorBody "Product not found"), shop).
Proof.
  assert (Forall (λ q, ¬ has_id 0x64b000000000000000000003%N q) shop) as Hfresh
    by (repeat constructor; by compute).
  split_and!; [reflexivity | exact Hfresh |].
  exact (proj1 (proj2 (proj2
    (unknown_id_answers (λ i, N.of_nat i) 0%N mug_id no_fields body_without_color
       shop _ eq_refl Hfresh)))).
Defined.

(** [DELETE /products/:id] takes the first product with the identifier
    out of the store and keeps the others in their order. *)
Theorem delete_product_exact id c oid i p :
  castObjectId id = Ok oid →
  list_find (has_id oid) c = Some (i, p) →
  ∃ c1 c2,
    c = c1 ++ p :: c2 ∧ length c1 = i ∧ Forall (λ q, ¬ has_id oid q) c1 ∧
    delete_product id c =
      (mkResponse 200 (MessageBody "Product deleted successfully"), c1 ++ c2).
Proof.
  intros Hid Hfind.
  rewrite (delete_product_found id c oid i p Hid Hfind).
  destruct (list_find_split _ _ _ _ Hfind) as (c1 & c2 & -> & <- & Hc1 & _).
  exists c1, c2. split_and!; try done. by rewrite delete_middle.
Qed.

Lemma delete_product_exact_witness :
  ∃ c1 c2,
    shop = c1 ++ tshirt :: c2 ∧ length c1 = 0%nat ∧
    Forall (λ q, ¬ has_id (_id tshirt) q) c1 ∧
    delete_product tshirt_id shop =
      (mkResponse 200 (MessageBody "Product deleted successfully"), c1 ++ c2).
Proof.
  exact (delete_product_exact tshirt_id shop (_id tshirt) 0%nat tshirt
           eq_refl eq_refl).
Defined.

Lemma delete_product_store id c :
  (delete_product id c).2 = c ∨
  ∃ oid c1 p c2,
    castObjectId id = Ok oid ∧ c = c1 ++ p :: c2 ∧ has_id oid p ∧
    Forall (λ q, ¬ has_id oid q) c1 ∧ (delete_product id c).2 = c1 ++ c2.
Proof.
  destruct (castObjectId id) as [oid|e] eqn:Hid.
  - destruct (list_find (has_id oid) c) as [[i p]|] eqn:Hfind.
    + right. rewrite (delete_product_found id c oid i p Hid Hfind).
      destruct (list_find_split _ _ _ _ Hfind) as (c1 & c2 & -> & <- & Hc1 & Hp).
      exists oid, c1, p, c2. split_and!; try done. simpl. by rewrite delete_middle.
    + left. by rewrite (delete_product_missing id c oid Hid Hfind).
  - left. by rewrite (delete_product_malformed id c e Hid).
Qed.

Lemma not_has_id_iff oid (c : list Product) :
  Forall (λ q, ¬ has_id oid q) c ↔ oid ∉ _id <$> c.
Proof.
  rewrite Forall_forall, list_elem_of_fmap. unfold has_id. split.
  - intros Hall (q & -> & Hq). by apply (Hall q).
  - intros Hno q Hq Hid. apply Hno. by exists q.
Qed.

(** On a store with unique identifiers a deleted product is gone: after
    [DELETE /products/:id] no product has the identifier, GET and a second
    DELETE answer 404, and the identifiers are still unique. *)
Theorem delete_product_then_gone id c oid :
  id_unique c →
  castObjectId id = Ok oid →
  let c' := (delete_product id c).2 in
  Forall (λ q, ¬ has_id oid q) c' ∧ id_unique c' ∧
  get_product_by_id id c' = mkResponse 404 (ErrorBody "Product not found") ∧
  delete_product id c' = (mkResponse 404 (ErrorBody "Product not found"), c').
Proof.
  intros Huniq Hid c'.
  assert (Forall (λ q, ¬ has_id oid q) c' ∧ id_unique c') as [Hgone Huniq'].
  { unfold c'. destruct (list_find (has_id oid) c) as [[i p]|] eqn:Hfind.
    - rewrite (delete_product_found id c oid i p Hid Hfind). simpl.
      destruct (list_find_split _ _ _ _ Hfind) as (c1 & c2 & -> & <- & Hc1 & Hp).
      rewrite delete_middle. unfold id_unique in *.
      rewrite fmap_app in Huniq. simpl in Huniq.
      apply NoDup_app in Huniq as (Hn1 & Hdisj & Hn2).
      apply NoDup_cons in Hn2 as [Hp2 Hn2]. rewrite Hp in Hp2.
      split.
      + apply Forall_app. split; [done | by apply not_has_id_iff].
      + rewrite fmap_app. apply NoDup_app. split_and!; [done | | done].
        intros x Hx1 Hx2. apply (Hdisj x Hx1). by right.
    - rewrite (delete_product_missing id c oid Hid Hfind). simpl.
      split; [| done]. by apply list_find_None in Hfind. }
  split_and!; try done.
  - by apply get_product_by_id_missing with oid.
  - apply delete_product_missing with oid; [done |].
    by apply list_find_is_None.
Qed.

Lemma delete_product_then_gone_witness :
  id_unique shop ∧ castObjectId tshirt_id = Ok (_id tshirt) ∧
  delete_product tshirt_id (delete_product tshirt_id shop).2 =
    (mkResponse 404 (ErrorBody "Product not found"), [laptop]).
Proof.
  assert (id_unique shop) as Huniq by (unfold id_unique; compute_done).
  split_and!; [exact Huniq | reflexivity |].
  exact (proj2 (proj2 (proj2
    (delete_product_then_gone tshirt_id shop (_id tshirt) Huniq eq_refl)))).
Defined.

(** The delete of a product takes its variants with it: on a store with
    unique skus, no sku of the deleted product is left, the stock route and
    the delete route by such a sku answer 404, and the skus left are
    unique. *)
Theorem delete_product_cascades id c oid i p k n :
  sku_unique c →
  castObjectId id = Ok oid →
  list_find (has_id oid) c = Some (i, p) →
  variants_sku k p →
  let c' := (delete_product id c).2 in
  (k ∉ skus c') ∧ sku_unique c' ∧
  patch_variant_stock k n c' =
    (mkResponse 404 (ErrorBody "Variant not found"), c') ∧
  delete_variant_by_sku k c' =
    (mkResponse 404 (ErrorBody "Variant not found"), c').
Proof.
  intros Huniq Hid Hfind Hk c'.
  assert ((k ∉ skus c') ∧ sku_unique c') as [Hgone Huniq'].
  { unfold c'. rewrite (delete_product_found id c oid i p Hid Hfind). simpl.
    destruct (list_find_split _ _ _ _ Hfind) as (c1 & c2 & -> & <- & _ & _).
    rewrite delete_middle. unfold sku_unique in *.
    rewrite skus_middle in Huniq.
    assert (skus (c1 ++ c2) = skus c1 ++ skus c2) as ->
      by (unfold skus; by rewrite all_variants_app, omap_app).
    assert (k ∈ omap sku (variants p)) as Hkp.
    { apply Exists_exists in Hk as (v & Hv & Hkv).
      apply list_elem_of_omap. by exists v. }
    apply NoDup_app in Huniq as (Hn1 & Hdisj & Huniq).
    apply NoDup_app in Huniq as (Hnp & Hdisj2 & Hn2).
    split.
    - rewrite elem_of_app. intros [Hin | Hin].
      + apply (Hdisj k Hin). apply elem_of_app. by left.
      + by apply (Hdisj2 k Hkp).
    - apply NoDup_app. split_and!; [done | | done].
      intros x Hx1 Hx2. apply (Hdisj x Hx1). apply elem_of_app. by right. }
  split_and!; try done.
  - by apply patch_variant_stock_absent.
  - by apply delete_variant_by_sku_absent.
Qed.

Lemma delete_product_cascades_witness :
  sku_unique shop ∧ variants_sku "TS-BLUE-L" tshirt ∧
  patch_variant_stock "TS-BLUE-L" 1 (delete_product tshirt_id shop).2 =
    (mkResponse 404 (ErrorBody "Variant not found"), [laptop]).
Proof.
  assert (sku_unique shop) as Huniq by (unfold sku_unique; compute_done).
  assert (variants_sku "TS-BLUE-L" tshirt) as Hk
    by (unfold variants_sku; compute_done).
  split_and!; [exact Huniq | exact Hk |].
  exact (proj1 (proj2 (proj2
    (delete_product_cascades tshirt_id shop (_id tshirt) 0%nat tshirt
       "TS-BLUE-L" 1 Huniq eq_refl eq_refl Hk)))).
Defined.

(** *** The schema as an invariant of the store *)

Lemma insert_valid (c : list Product) i p p' :
  c !! i = Some p → (valid_product p → valid_product p') →
  Forall valid_product c → Forall valid_product (<[i := p']> c).
Proof.
  intros Hi Hupd Hc. apply Forall_insert; [done |]. apply Hupd.
  by apply (Forall_lookup_1 _ _ _ _ Hc Hi).
Qed.

Lemma valid_with_variants p vs :
  valid_product p → Forall valid_variant vs → valid_product (with_variants p vs).
Proof. intros (?&?&?&?&?&?) Hvs. by split_and!. Qed.

Lemma valid_variants_of p : valid_product p → Forall valid_variant (variants p).
Proof. by intros (?&?&?&?&?&?). Qed.

Lemma valid_with_stock v n : valid_variant v → 0 ≤ n → valid_variant (with_stock v n).
Proof. intros (?&?&?&?) Hn. split_and!; try done. by exists n. Qed.

Lemma valid_set_positional_stock k n p :
  0 ≤ n → valid_product p → valid_product (set_positional_stock k n p).
Proof.
  intros Hn Hp. unfold set_positional_stock.
  destruct (list_find _ _) as [[i v]|] eqn:Hfind; [| done].
  apply list_find_Some in Hfind as (Hi & _ & _).
  pose proof (valid_variants_of p Hp) as Hvs.
  apply valid_with_variants; [done |].
  apply Forall_insert; [done |]. apply valid_with_stock; [| done].
  by apply (Forall_lookup_1 _ _ _ _ Hvs Hi).
Qed.

Lemma valid_pull_sku k p : valid_product p → valid_product (pull_sku k p).
Proof.
  intros Hp. apply valid_with_variants; [done |].
  pose proof (valid_variants_of p Hp) as Hvs.
  apply Forall_forall. intros v [_ Hv]%list_elem_of_filter.
  by apply (proj1 (Forall_forall _ _) Hvs).
Qed.

Lemma valid_push_variant v p :
  valid_variant v → valid_product p → valid_product (push_variant v p).
Proof.
  intros Hv Hp. apply valid_with_variants; [done |].
  apply Forall_app. split; [by apply valid_variants_of | by constructor].
Qed.

(** The schema is an invariant of the store under [POST /products], under
    both delete routes, under a stock request with a stock of at least 0 and
    under the post of a variant that meets the schema: if every product of
    the store meets the schema before, every product does after. *)
Theorem schema_kept oid fresh t_created t_updated f id k n vid b c :
  Forall valid_product c →
  Forall valid_product (post_product oid fresh t_created t_updated f c).2 ∧
  Forall valid_product (delete_product id c).2 ∧
  Forall valid_product (delete_variant_by_sku k c).2 ∧
  (0 ≤ n → Forall valid_product (patch_variant_stock k n c).2) ∧
  (acceptable_variant b →
   Forall valid_product (post_product_variant vid id b c).2).
Proof.
  intros Hc. split_and!.
  - destruct (new_product oid fresh t_created t_updated f) as [paths|p] eqn:Hnew.
    + unfold post_product. by rewrite Hnew.
    + rewrite (post_product_saved _ _ _ _ _ _ p Hnew).
      case_decide; [done |]. simpl.
      apply new_product_valid in Hnew as [_ Hp].
      apply Forall_app. split; [done | by constructor].
  - destruct (delete_product_store id c)
      as [-> | (o & c1 & p & c2 & _ & -> & _ & _ & ->)]; [done |].
    apply Forall_app in Hc as [Hc1 Hc2]. apply Forall_cons in Hc2 as [_ Hc2].
    by apply Forall_app.
  - destruct (delete_variant_by_sku_store k c) as [-> | (i & p & Hi & ->)];
      [done |].
    apply (insert_valid c i p); [done | apply valid_pull_sku | done].
  - intros Hn.
    destruct (patch_variant_stock_store k n c) as [-> | (i & p & Hi & ->)];
      [done |].
    apply (insert_valid c i p); [done | by apply valid_set_positional_stock | done].
  - intros Hb.
    destruct (post_product_variant_store vid id b c) as [-> | (i & p & Hi & ->)];
      [done |].
    apply (insert_valid c i p); [done | | done].
    apply valid_push_variant. by apply valid_cast_variant.
Qed.

Lemma schema_kept_witness :
  Forall valid_product shop ∧
  Forall valid_product (patch_variant_stock "TS-RED-M" 0 shop).2.
Proof.
  assert (Forall valid_product shop) as Hshop.
  { repeat constructor; try done; try compute_done;
      try (eexists; split; [reflexivity | done]). }
  split; [exact Hshop |].
  refine (proj1 (proj2 (proj2 (proj2
    (schema_kept 0%N (λ i, N.of_nat i) 0 0 no_fields tshirt_id "TS-RED-M" 0 0%N
       body_without_color shop Hshop)))) _).
  done.
Defined.

(** *** The queries *)

(** The category query returns, in store order, exactly the products of
    that category; the colour query returns, in store order, exactly the
    products that have a variant of that colour, each with all its
    variants. *)
Theorem queries_select cat col c :
  ∃ by_category by_color,
    get_products_by_category cat c = mkResponse 200 (ProductsBody by_category) ∧
    get_products_by_color col c = mkResponse 200 (ProductsBody by_color) ∧
    by_category `sublist_of` c ∧ by_color `sublist_of` c ∧
    (∀ p, p ∈ by_category ↔ p ∈ c ∧ category p = cat) ∧
    (∀ p, p ∈ by_color ↔ p ∈ c ∧ ∃ v, v ∈ variants p ∧ color v = Some col).
Proof.
  exists (filter (has_category cat) c), (filter (variants_color col) c).
  split_and!; try done; try apply sublist_filter.
  - intros p. rewrite list_elem_of_filter. unfold has_category. tauto.
  - intros p. rewrite list_elem_of_filter. unfold variants_color, has_color.
    rewrite Exists_exists. tauto.
Qed.

End CatalogProducts.

(** ** The smaller server: the other routes *)

Module MinimalRoutes.
Import Minimal MinimalSpec.

(** *** [GET /products/category/:category] *)

(** The category query returns, in store order, exactly the products of
    that category, and the empty list when there is none: the test on the
    length changes nothing, and no sample is ever returned. *)
Theorem get_products_by_category_exact cat c :
  ∃ ps,
    get_products_by_category cat c = mkReply 200 (ListedBody ps) ∧
    ps = filter (has_category cat) c ∧
    ps `sublist_of` c ∧
    (∀ p, p ∈ ps ↔ p ∈ c ∧ category p = cat).
Proof.
  exists (filter (has_category cat) c). split_and!.
  - unfold get_products_by_category, find_where. simpl.
    destruct (filter (has_category cat) c); by simpl.
  - done.
  - apply sublist_filter.
  - intros p. rewrite list_elem_of_filter. unfold has_category. tauto.
Qed.

(** *** [POST /products] *)

Lemma minimal_new_product_inr oid now f p :
  new_product oid now f = inr p ↔
  acceptable f ∧
  p = {| _id := oid;
         name := default "" (req_name f);
         price := default 0 (req_price f);
         category := default "" (req_category f);
         variants := castVariants (default [] (req_variants f));
         createdAt := now;
         updatedAt := now |}.
Proof.
  unfold new_product, acceptable.
  destruct (also _ _) as [paths|(n & pr & cat)] eqn:Hchecks.
  - split; [done |]. intros [(Hn & Hpr & Hcat) _]. exfalso.
    destruct Hn as (n & Hn), Hpr as (pr & Hpr), Hcat as (cat & Hcat).
    apply (required_string_inr "name") in Hn.
    apply (required_min0_inr "price") in Hpr.
    apply (required_string_inr "category") in Hcat.
    by rewrite Hn, Hpr, Hcat in Hchecks.
  - apply also_inr in Hchecks as [Hn Hchecks].
    apply also_inr in Hchecks as [Hpr Hcat].
    apply required_string_inr in Hn as [Hn Hn'], Hcat as [Hcat Hcat'].
    apply required_min0_inr in Hpr as [Hpr Hpr'].
    rewrite Hn, Hpr, Hcat. simpl. split.
    + intros [= <-]. split; [| done]. split_and!; eauto.
    + intros [_ ->]. done.
Qed.

Lemma minimal_new_product_valid oid now f p :
  new_product oid now f = inr p →
  _id p = oid ∧ createdAt p = now ∧ updatedAt p = now ∧ valid_product p.
Proof.
  intros [(Hn & Hpr & Hcat) ->]%minimal_new_product_inr.
  destruct Hn as (n & -> & Hn), Hpr as (pr & -> & Hpr), Hcat as (cat & -> & Hcat).
  by split_and!.
Qed.

(** [POST /products] answers 201 exactly to a body with a name, a category
    and a price of at least 0, and then appends one document with the
    generated identifier and both dates at the time of the save; it answers
    400 to any other body and leaves the store as it was. *)
Theorem minimal_post_product_outcome oid now f c :
  let posted := post_product oid now f c in
  (acceptable f ∧
   ∃ p, posted = (mkReply 201 (SavedBody p), c ++ [p]) ∧
        _id p = oid ∧ createdAt p = now ∧ updatedAt p = now ∧ valid_product p) ∨
  (¬ acceptable f ∧
   ∃ paths, posted = (mkReply 400 (ThrownBody (ThrownValidation paths)), c)).
Proof.
  unfold post_product.
  destruct (new_product oid now f) as [paths|p] eqn:Hnew.
  - right. split; [| by exists paths].
    intros Hok.
    pose proof (proj2 (minimal_new_product_inr oid now f _) (conj Hok eq_refl)) as Hnew'.
    by rewrite Hnew in Hnew'.
  - left. pose proof Hnew as [Hok _]%minimal_new_product_inr.
    apply minimal_new_product_valid in Hnew. split; [done |]. by exists p.
Qed.

(** Once a product has been saved, [GET /products] answers with the store
    and not with the samples. *)
Theorem post_product_then_list oid now f c p :
  new_product oid now f = inr p →
  get_products (post_product oid now f c).2 =
    mkResponse 200 (ProductsBody (c ++ [p])).
Proof.
  intros Hnew. unfold post_product. rewrite Hnew. simpl.
  unfold get_products, find. simpl.
  rewrite bool_decide_eq_true_2; [done |].
  rewrite length_app. simpl. lia.
Qed.

Lemma post_product_then_list_witness :
  get_products (post_product 7%N 900 chair_fields []).2 =
    mkResponse 200
      (ProductsBody
         [mkProduct 7%N "Chair" 45 "Home" [mkVariant (Some "Grey") None 0] 900 900]).
Proof.
  exact (post_product_then_list 7%N 900 chair_fields [] _ eq_refl).
Defined.

(** *** [PUT /products/:id] *)

Lemma minimal_put_product_found now id f c oid i p :
  castObjectId id = Ok oid →
  update_failures f = [] →
  list_find (has_id oid) c = Some (i, p) →
  put_product now id f c =
    (mkReply 200 (SavedBody (set_fields now f p)), <[i := set_fields now f p]> c).
Proof.
  intros Hid Hvalid Hfind. unfold put_product, findByIdAndUpdate, cast_id.
  rewrite Hid, Hvalid. simpl. by rewrite Hfind.
Qed.

Lemma minimal_put_product_missing now id f c oid :
  castObjectId id = Ok oid →
  update_failures f = [] →
  list_find (has_id oid) c = None →
  put_product now id f c = (mkReply 404 (NotFoundBody "Product not found"), c).
Proof.
  intros Hid Hvalid Hfind. unfold put_product, findByIdAndUpdate, cast_id.
  rewrite Hid, Hvalid. simpl. by rewrite Hfind.
Qed.

Lemma put_product_invalid now id f c path paths :
  update_failures f = path :: paths →
  ∃ error, put_product now id f c = (mkReply 400 (ThrownBody error), c).
Proof.
  intros Hinvalid. unfold put_product, findByIdAndUpdate, cast_id.
  destruct (castObjectId id) as [oid|e]; simpl.
  - rewrite Hinvalid. simpl. by eexists.
  - by eexists.
Qed.

Lemma minimal_put_product_malformed now id f c e :
  castObjectId id = Throw e →
  put_product now id f c = (mkReply 400 (ThrownBody (ThrownDriver e)), c).
Proof.
  intros Hid. unfold put_product, findByIdAndUpdate, cast_id. by rewrite Hid.
Qed.

(** With [runValidators: true] a PUT whose body carries a negative [price]
    is answered 400, for every identifier, and the store is as it was. *)
Theorem put_product_rejects_negative_price now id f c n :
  req_price f = Some n → n < 0 →
  ∃ error, put_product now id f c = (mkReply 400 (ThrownBody error), c).
Proof.
  intros Hprice Hn.
  assert (∃ path paths, update_failures f = path :: paths) as (path & paths & Hf).
  { unfold update_failures. rewrite Hprice. simpl.
    rewrite decide_False by lia. simpl.
    destruct (when_set _ (req_name f)) as [|q qs]; simpl; eauto. }
  by apply put_product_invalid with path paths.
Qed.

Lemma put_product_rejects_negative_price_witness :
  ∃ error, put_product 900 lamp_id (price_fields (-1)) office =
             (mkReply 400 (ThrownBody error), office).
Proof.
  apply (put_product_rejects_negative_price 900 lamp_id (price_fields (-1)) office (-1));
    [reflexivity | lia].
Defined.

(** A PUT that passes the validators on an existing product sets
    [updatedAt] to the time of the request and keeps [_id] and [createdAt];
    the answer carries the updated product. *)
Theorem put_product_refreshes now id f c oid i p :
  castObjectId id = Ok oid →
  update_failures f = [] →
  list_find (has_id oid) c = Some (i, p) →
  ∃ p', put_product now id f c = (mkReply 200 (SavedBody p'), <[i := p']> c) ∧
        updatedAt p' = now ∧ createdAt p' = createdAt p ∧ _id p' = _id p.
Proof.
  intros Hid Hvalid Hfind. exists (set_fields now f p).
  by rewrite (minimal_put_product_found now id f c oid i p Hid Hvalid Hfind).
Qed.

Lemma put_product_refreshes_witness :
  ∃ p', put_product 900 lamp_id (price_fields 35) office =
          (mkReply 200 (SavedBody p'), <[0%nat := p']> office) ∧
        updatedAt p' = 900 ∧ createdAt p' = createdAt lamp ∧ _id p' = _id lamp.
Proof.
  exact (put_product_refreshes 900 lamp_id (price_fields 35) office (_id lamp)
           0%nat lamp eq_refl eq_refl eq_refl).
Defined.

(** The variants a PUT stored are the variants [GET /products/:id/variants]
    returns afterwards: the variants of the body after the cast, which
    gives [stock] its default 0. *)
Theorem put_product_then_variants now id f c oid i p bs :
  castObjectId id = Ok oid →
  update_failures f = [] →
  list_find (has_id oid) c = Some (i, p) →
  req_variants f = Some bs →
  get_product_variants id (put_product now id f c).2 =
    mkResponse 200 (VariantsBody (castVariants bs)).
Proof.
  intros Hid Hvalid Hfind Hbs.
  rewrite (minimal_put_product_found now id f c oid i p Hid Hvalid Hfind). simpl.
  destruct (list_find_split _ _ _ _ Hfind) as (c1 & c2 & -> & <- & Hc1 & Hp).
  rewrite insert_middle.
  rewrite (get_product_variants_found id _ oid (length c1) (set_fields now f p));
    [| done | by apply list_find_middle].
  simpl. by rewrite Hbs.
Qed.

Lemma put_product_then_variants_witness :
  get_product_variants lamp_id (put_product 900 lamp_id chair_fields office).2 =
    mkResponse 200 (VariantsBody [mkVariant (Some "Grey") None 0]).
Proof.
  exact (put_product_then_variants 900 lamp_id chair_fields office (_id lamp)
           0%nat lamp _ eq_refl eq_refl eq_refl eq_refl).
Defined.

(** *** [DELETE /products/:id] *)

Lemma minimal_delete_product_found id c oid i p :
  castObjectId id = Ok oid →
  list_find (has_id oid) c = Some (i, p) →
  delete_product id c = (mkReply 200 (DeletedBody "Product deleted" p), delete i c).
Proof.
  intros Hid Hfind. unfold delete_product, findByIdAndDelete, cast_id.
  rewrite Hid. simpl. by rewrite Hfind.
Qed.

Lemma minimal_delete_product_missing id c oid :
  castObjectId id = Ok oid →
  list_find (has_id oid) c = None →
  delete_product id c = (mkReply 404 (NotFoundBody "Product not found"), c).
Proof.
  intros Hid Hfind. unfold delete_product, findByIdAndDelete, cast_id.
  rewrite Hid. simpl. by rewrite Hfind.
Qed.

Lemma minimal_delete_product_malformed id c e :
  castObjectId id = Throw e →
  delete_product id c = (mkReply 500 (ThrownBody (ThrownDriver e)), c).
Proof.
  intros Hid. unfold delete_product, findByIdAndDelete, cast_id. by rewrite Hid.
Qed.

(** [DELETE /products/:id] answers with the product it deleted, which is
    the first of the store with the identifier, and keeps the others in
    their order. *)
Theorem delete_product_returns id c oid i p :
  castObjectId id = Ok oid →
  list_find (has_id oid) c = Some (i, p) →
  ∃ c1 c2,
    c = c1 ++ p :: c2 ∧ length c1 = i ∧ Forall (λ q, ¬ has_id oid q) c1 ∧
    delete_product id c =
      (mkReply 200 (DeletedBody "Product deleted" p), c1 ++ c2).
Proof.
  intros Hid Hfind.
  rewrite (minimal_delete_product_found id c oid i p Hid Hfind).
  destruct (list_find_split _ _ _ _ Hfind) as (c1 & c2 & -> & <- & Hc1 & _).
  exists c1, c2. split_and!; try done. by rewrite delete_middle.
Qed.

Lemma delete_product_returns_witness :
  ∃ c1 c2,
    office = c1 ++ lamp :: c2 ∧ length c1 = 0%nat ∧
    Forall (λ q, ¬ has_id (_id lamp) q) c1 ∧
    delete_product lamp_id office =
      (mkReply 200 (DeletedBody "Product deleted" lamp), c1 ++ c2).
Proof.
  exact (delete_product_returns lamp_id office (_id lamp) 0%nat lamp
           eq_refl eq_refl).
Defined.

(** *** The schema as an invariant of the store *)

Lemma when_set_string_nil path x s :
  when_set (required_string path) x = [] → x = Some s → s ≠ "".
Proof.
  intros Hnil ->. simpl in Hnil. by case_decide.
Qed.

Lemma when_set_min0_nil path x n :
  when_set (required_min0 path) x = [] → x = Some n → 0 ≤ n.
Proof.
  intros Hnil ->. simpl in Hnil. by case_decide.
Qed.

Lemma valid_set_fields now f p :
  update_failures f = [] → valid_product p → valid_product (set_fields now f p).
Proof.
  unfold update_failures. intros [Hn Hrest]%app_nil (Hp1 & Hp2 & Hp3).
  apply app_nil in Hrest as [Hpr Hcat].
  unfold valid_product. simpl. split_and!.
  - destruct (req_name f) as [s|] eqn:Hs; [| done].
    by apply (when_set_string_nil "name" (Some s)).
  - destruct (req_price f) as [n|] eqn:Hs; [| done].
    by apply (when_set_min0_nil "price" (Some n)).
  - destruct (req_category f) as [s|] eqn:Hs; [| done].
    by apply (when_set_string_nil "category" (Some s)).
Qed.

Lemma put_product_inc_found now id d c oid i p :
  castObjectId id = Ok oid →
  list_find (has_id oid) c = Some (i, p) →
  put_product_inc now id d c =
    (mkReply 200 (SavedBody (inc_price now d p)), <[i := inc_price now d p]> c).
Proof.
  intros Hid Hfind. unfold put_product_inc, findByIdAndUpdate, cast_id.
  rewrite Hid. simpl. by rewrite Hfind.
Qed.

Lemma put_product_inc_missing now id d c oid :
  castObjectId id = Ok oid →
  list_find (has_id oid) c = None →
  put_product_inc now id d c = (mkReply 404 (NotFoundBody "Product not found"), c).
Proof.
  intros Hid Hfind. unfold put_product_inc, findByIdAndUpdate, cast_id.
  rewrite Hid. simpl. by rewrite Hfind.
Qed.

Lemma put_product_inc_malformed now id d c e :
  castObjectId id = Throw e →
  put_product_inc now id d c = (mkReply 400 (ThrownBody (ThrownDriver e)), c).
Proof.
  intros Hid. unfold put_product_inc, findByIdAndUpdate, cast_id. by rewrite Hid.
Qed.

(** No validator runs on [$inc]: the body [{ "$inc": { "price": -1000 } }]
    on the lamp is answered 200 and leaves the price -970. *)
Lemma put_product_inc_below_zero :
  put_product_inc 900 lamp_id (-1000) office =
    (mkReply 200 (SavedBody (inc_price 900 (-1000) lamp)),
     [inc_price 900 (-1000) lamp; desk]) ∧
  price (inc_price 900 (-1000) lamp) = -970.
Proof. by split. Qed.

(** The schema is an invariant of the store under POST, under DELETE, under
    a PUT whose body is made of plain fields, and under a PUT whose body is
    an [$inc] of [price] by at least 0: if every product has a name, a
    category and a price of at least 0 before, every product has after. *)
Theorem minimal_schema_kept oid now f id d c :
  Forall valid_product c →
  Forall valid_product (post_product oid now f c).2 ∧
  Forall valid_product (put_product now id f c).2 ∧
  Forall valid_product (delete_product id c).2 ∧
  (0 ≤ d → Forall valid_product (put_product_inc now id d c).2).
Proof.
  intros Hc. split_and!.
  - unfold post_product.
    destruct (new_product oid now f) as [paths|p] eqn:Hnew; simpl; [done |].
    apply minimal_new_product_valid in Hnew as (_ & _ & _ & Hp).
    apply Forall_app. split; [done | by constructor].
  - destruct (castObjectId id) as [oid'|e] eqn:Hid;
      [| by rewrite (minimal_put_product_malformed now id f c e Hid)].
    destruct (update_failures f) as [|path paths] eqn:Hvalid.
    + destruct (list_find (has_id oid') c) as [[i p]|] eqn:Hfind.
      * rewrite (minimal_put_product_found now id f c oid' i p Hid Hvalid Hfind). simpl.
        apply list_find_Some in Hfind as (Hi & _ & _).
        apply Forall_insert; [done |]. apply valid_set_fields; [done |].
        by apply (Forall_lookup_1 _ _ _ _ Hc Hi).
      * by rewrite (minimal_put_product_missing now id f c oid' Hid Hvalid Hfind).
    + destruct (put_product_invalid now id f c path paths Hvalid) as [error ->].
      done.
  - destruct (castObjectId id) as [oid'|e] eqn:Hid;
      [| by rewrite (minimal_delete_product_malformed id c e Hid)].
    destruct (list_find (has_id oid') c) as [[i p]|] eqn:Hfind.
    + rewrite (minimal_delete_product_found id c oid' i p Hid Hfind). simpl.
      by apply Forall_delete.
    + by rewrite (minimal_delete_product_missing id c oid' Hid Hfind).
  - intros Hd.
    destruct (castObjectId id) as [oid'|e] eqn:Hid;
      [| by rewrite (put_product_inc_malformed now id d c e Hid)].
    destruct (list_find (has_id oid') c) as [[i p]|] eqn:Hfind.
    + rewrite (put_product_inc_found now id d c oid' i p Hid Hfind). simpl.
      apply list_find_Some in Hfind as (Hi & _ & _).
      apply Forall_insert; [done |].
      destruct (Forall_lookup_1 _ _ _ _ Hc Hi) as (Hn & Hp & Hcat).
      unfold valid_product. simpl. split_and!; [done | lia | done].
    + by rewrite (put_product_inc_missing now id d c oid' Hid Hfind).
Qed.

Lemma minimal_schema_kept_witness :
  Forall valid_product office ∧
  Forall valid_product (put_product 900 lamp_id (price_fields 35) office).2 ∧
  Forall valid_product (put_product_inc 900 lamp_id 5 office).2.
Proof.
  assert (Forall valid_product office) as Hoffice
    by (repeat constructor; done).
  split_and!; [exact Hoffice | |].
  - exact (proj1 (proj2
      (minimal_schema_kept 0%N 900 (price_fields 35) lamp_id 5 office Hoffice))).
  - refine (proj2 (proj2 (proj2
      (minimal_schema_kept 0%N 900 (price_fields 35) lamp_id 5 office Hoffice))) _).
    done.
Defined.

End MinimalRoutes.
